(** * DpsConfig: the configuration container of the DPS ecosystem

    A shallow embedding of [src/index.ts] (class [DpsConfig]) together with
    the parts of the JavaScript platform its methods call: strings as
    sequences of UTF-16 code units, [process.env] as a finite map, Numbers
    as IEEE-754 binary64 values, [parseInt], [isNaN], template-literal
    string conversion and the WHATWG UTF-8 encoder and decoder. *)

From Stdlib Require Import ZArith List Ascii String Lia SpecFloat QArith Qround Lqa.
From stdpp Require Import base option list gmap.

Close Scope Q_scope.
Open Scope Z_scope.

(** ** JavaScript strings *)

(** A JavaScript string is a finite sequence of 16-bit code units. *)
Abbreviation code_unit := Z (only parsing).
Abbreviation jsstring := (list Z) (only parsing).

(** String literals of the source are ASCII; [js] turns one into code units. *)
Definition js (s : string) : jsstring :=
  map (fun a => Z.of_N (N_of_ascii a)) (list_ascii_of_string s).

(** ** Completions: a method call returns normally or throws *)

Inductive JsError := TypeError.

Inductive completion (A : Type) :=
| Normal (a : A)
| Throw (e : JsError).
Arguments Normal {A} a.
Arguments Throw {A} e.

#[global] Instance completion_ret : MRet completion := fun A a => Normal a.
#[global] Instance completion_bind : MBind completion := fun A B f m =>
  match m with
  | Normal a => f a
  | Throw e => Throw e
  end.
#[global] Instance completion_fmap : FMap completion := fun A B f m =>
  match m with
  | Normal a => Normal (f a)
  | Throw e => Throw e
  end.

(** [value.length]: reading a property of [undefined] throws a TypeError. *)
Definition get_length (value : option jsstring) : completion Z :=
  match value with
  | Some s => Normal (Z.of_nat (length s))
  | None => Throw TypeError
  end.

(** ToBoolean on a [string | undefined]: [undefined] and the empty string are falsy. *)
Definition ToBoolean_string (value : option jsstring) : bool :=
  match value with
  | Some (_ :: _) => true
  | _ => false
  end.

(** ToString on a [string | undefined]. *)
Definition ToString_string (value : option jsstring) : jsstring :=
  match value with
  | Some s => s
  | None => js "undefined"
  end.

(** ** JavaScript Numbers: IEEE-754 binary64 *)

Definition number := spec_float.
Definition prec : Z := 53.
Definition emax : Z := 1024.
Definition NaN : number := S754_nan.

(** 𝔽(z): the Number nearest to the mathematical integer [z], ties to even. *)
Definition Number_of_Z (z : Z) : number := binary_normalize prec emax z 0 false.

Definition isNaN (n : number) : bool :=
  match n with
  | S754_nan => true
  | _ => false
  end.

(** ToBoolean on a [number | undefined]: [undefined], [+0], [-0] and [NaN] are falsy. *)
Definition ToBoolean_number (value : option number) : bool :=
  match value with
  | None => false
  | Some (S754_zero _) => false
  | Some S754_nan => false
  | Some _ => true
  end.

(** *** parseInt *)

(** WhiteSpace and LineTerminator code points stripped by TrimString. *)
Definition is_white_space (u : code_unit) : bool :=
  (u =? 0x09) || (u =? 0x0A) || (u =? 0x0B) || (u =? 0x0C) || (u =? 0x0D) ||
  (u =? 0x20) || (u =? 0xA0) || (u =? 0x1680) ||
  ((0x2000 <=? u) && (u <=? 0x200A)) ||
  (u =? 0x2028) || (u =? 0x2029) || (u =? 0x202F) || (u =? 0x205F) ||
  (u =? 0x3000) || (u =? 0xFEFF).

Fixpoint trim_start (s : jsstring) : jsstring :=
  match s with
  | u :: rest => if is_white_space u then trim_start rest else s
  | [] => []
  end.

(** The value of a code unit as a digit, for radices up to 36. *)
Definition digit_value (u : code_unit) : option Z :=
  if (0x30 <=? u) && (u <=? 0x39) then Some (u - 0x30)
  else if (0x61 <=? u) && (u <=? 0x7A) then Some (u - 0x61 + 10)
  else if (0x41 <=? u) && (u <=? 0x5A) then Some (u - 0x41 + 10)
  else None.

Definition is_radix_digit (R : Z) (u : code_unit) : bool :=
  match digit_value u with
  | Some d => d <? R
  | None => false
  end.

(** The longest prefix made of radix-[R] digits. *)
Fixpoint digit_prefix (R : Z) (s : jsstring) : jsstring :=
  match s with
  | u :: rest => if is_radix_digit R u then u :: digit_prefix R rest else []
  | [] => []
  end.

(** The mathematical integer written by a digit string, most significant first. *)
Definition digits_value (R : Z) (ds : jsstring) : Z :=
  fold_left (fun acc u =>
               acc * R + match digit_value u with Some d => d | None => 0 end) ds 0.

Definition strip_sign (s : jsstring) : jsstring :=
  match s with
  | u :: rest => if (u =? 0x2B) || (u =? 0x2D) then rest else s
  | [] => []
  end.

Definition strip_hex_prefix (s : jsstring) : jsstring :=
  match s with
  | z :: x :: rest =>
      if (z =? 0x30) && ((x =? 0x78) || (x =? 0x58)) then rest else s
  | _ => s
  end.

(** [parseInt(string, radix)] of ECMAScript, [radix] an integer in int32 range. *)
Definition parseInt (input : jsstring) (radix : Z) : number :=
  let S0 := trim_start input in
  let negative := match S0 with u :: _ => u =? 0x2D | [] => false end in
  let S1 := strip_sign S0 in
  if (radix =? 0) || ((2 <=? radix) && (radix <=? 36)) then
    let stripPrefix := (radix =? 0) || (radix =? 16) in
    let hex := stripPrefix && negb (bool_decide (strip_hex_prefix S1 = S1)) in
    let S2 := if stripPrefix then strip_hex_prefix S1 else S1 in
    let R := if hex then 16 else if radix =? 0 then 10 else radix in
    match digit_prefix R S2 with
    | [] => NaN
    | ds =>
        let mathInt := digits_value R ds in
        if mathInt =? 0 then S754_zero negative
        else Number_of_Z (if negative then - mathInt else mathInt)
    end
  else NaN.

(** *** Number::toString, radix 10 *)

(** The decimal digits of a non-negative integer, most significant first. *)
Fixpoint decimal_digits_aux (fuel : nat) (z : Z) (acc : jsstring) : jsstring :=
  match fuel with
  | O => acc
  | S fuel' =>
      let acc' := (0x30 + z mod 10) :: acc in
      if z <? 10 then acc' else decimal_digits_aux fuel' (z / 10) acc'
  end.

Definition decimal_digits (z : Z) : jsstring :=
  decimal_digits_aux (S (Z.to_nat (Z.log2 z))) z [].

Definition pow10 (n : Z) : Q :=
  if 0 <=? n then inject_Z (10 ^ n) else Qinv (inject_Z (10 ^ (- n))).

Definition pow2 (n : Z) : Q :=
  if 0 <=? n then inject_Z (2 ^ n) else Qinv (inject_Z (2 ^ (- n))).

(** The least [j'] from [j] upwards with [v < 10^j']. *)
Fixpoint first_above (fuel : nat) (v : Q) (j : Z) : Z :=
  match fuel with
  | O => j
  | S fuel' => if Qle_bool (pow10 j) v then first_above fuel' v (j + 1) else j
  end.

(** The least [j'] from [j] upwards with [1 <= v * 10^j']. *)
Fixpoint first_scaled (fuel : nat) (v : Q) (j : Z) : Z :=
  match fuel with
  | O => j
  | S fuel' =>
      if Qle_bool 1%Q (Qmult v (pow10 j)) then j else first_scaled fuel' v (j + 1)
  end.

(** The [n] with [10^(n-1) <= v < 10^n], for [v > 0]. *)
Definition decimal_exponent (fuel : nat) (v : Q) : Z :=
  if Qle_bool 1%Q v then first_above fuel v 1
  else 1 - first_scaled fuel v 1.

(** Whether the real [c] rounds to the binary64 value [m * 2^e] (round to
    nearest, ties to even): [c] lies between the midpoints towards the two
    neighbouring values, the midpoints included when [m] is even. *)
Definition rounds_to (m : positive) (e : Z) (c : Q) : bool :=
  let v := Qmult (inject_Z (Zpos m)) (pow2 e) in
  let up := Qplus v (pow2 (e - 1)) in
  let down :=
    if (Zpos m =? 2 ^ (prec - 1)) && (3 - emax - prec <? e)
    then Qminus v (pow2 (e - 2)) else Qminus v (pow2 (e - 1)) in
  if Z.even (Zpos m)
  then Qle_bool down c && Qle_bool c up
  else negb (Qle_bool c down) && negb (Qle_bool up c).

(** For a digit count [k]: the [k]-digit decimals just below and just above
    [v]; the one that rounds to the value (the closer one when both do, the
    one with the even last digit when they are equally close). *)
Definition candidate (m : positive) (e : Z) (n0 k : Z) : option (Z * Z) :=
  let v := Qmult (inject_Z (Zpos m)) (pow2 e) in
  let scale := pow10 (n0 - k) in
  let s_lo := Qfloor (Qdiv v scale) in
  let s_hi := s_lo + 1 in
  let c_lo := Qmult (inject_Z s_lo) scale in
  let c_hi := Qmult (inject_Z s_hi) scale in
  let ok_lo := (10 ^ (k - 1) <=? s_lo) && rounds_to m e c_lo in
  let ok_hi := rounds_to m e c_hi in
  let pick_hi := if s_hi =? 10 ^ k then (10 ^ (k - 1), n0 + 1) else (s_hi, n0) in
  match ok_lo, ok_hi with
  | true, true =>
      match Qcompare (Qminus v c_lo) (Qminus c_hi v) with
      | Lt => Some (s_lo, n0)
      | Gt => Some pick_hi
      | Eq => if Z.even s_lo then Some (s_lo, n0) else Some pick_hi
      end
  | true, false => Some (s_lo, n0)
  | false, true => Some pick_hi
  | false, false => None
  end.

(** The shortest digit string: the least [k] that has a candidate. *)
Fixpoint shortest (fuel : nat) (m : positive) (e : Z) (n0 k : Z) : Z * Z * Z :=
  match fuel with
  | O => (Qfloor (Qdiv (Qmult (inject_Z (Zpos m)) (pow2 e)) (pow10 (n0 - k))), n0, k)
  | S fuel' =>
      match candidate m e n0 k with
      | Some (s, n) => (s, n, k)
      | None => shortest fuel' m e n0 (k + 1)
      end
  end.

Definition zeros (n : Z) : jsstring := replicate (Z.to_nat n) 0x30.

(** Steps 6 to 12 of Number::toString: lay out digits [s] ([k] of them)
    with decimal exponent [n]. *)
Definition format_decimal (s n k : Z) : jsstring :=
  let ds := decimal_digits s in
  if (k <=? n) && (n <=? 21) then ds ++ zeros (n - k)
  else if (0 <? n) && (n <=? 21) then
    take (Z.to_nat n) ds ++ js "." ++ drop (Z.to_nat n) ds
  else if (-6 <? n) && (n <=? 0) then js "0." ++ zeros (- n) ++ ds
  else
    let ex := n - 1 in
    let sign := if ex <? 0 then js "-" else js "+" in
    let mantissa := if k =? 1 then ds else take 1 ds ++ js "." ++ drop 1 ds in
    mantissa ++ js "e" ++ sign ++ decimal_digits (Z.abs ex).

Definition Number_toString (x : number) : jsstring :=
  match x with
  | S754_nan => js "NaN"
  | S754_zero _ => js "0"
  | S754_infinity neg => if neg then js "-Infinity" else js "Infinity"
  | S754_finite neg m e =>
      let fuel := Z.to_nat (Z.abs e + Z.log2 (Zpos m) + 2) in
      let n0 := decimal_exponent fuel (Qmult (inject_Z (Zpos m)) (pow2 e)) in
      let '(s, n, k) := shortest 17 m e n0 1 in
      (if neg then js "-" else []) ++ format_decimal s n k
  end.

(** ToString on a [number | undefined], as a template literal applies it. *)
Definition ToString_number (value : option number) : jsstring :=
  match value with
  | Some n => Number_toString n
  | None => js "undefined"
  end.

(** ** UTF-16 and UTF-8 *)

Definition is_high_surrogate (u : code_unit) : bool := (0xD800 <=? u) && (u <=? 0xDBFF).
Definition is_low_surrogate (u : code_unit) : bool := (0xDC00 <=? u) && (u <=? 0xDFFF).

(** UTF16SurrogatePairToCodePoint. *)
Definition surrogate_pair (lead trail : code_unit) : Z :=
  (lead - 0xD800) * 0x400 + (trail - 0xDC00) + 0x10000.

(** Conversion of a JavaScript string to a sequence of scalar values (WebIDL
    USVString): a surrogate pair is one code point, a surrogate that is not
    part of a pair becomes U+FFFD. *)
Fixpoint to_scalar_values (s : jsstring) : list Z :=
  match s with
  | [] => []
  | u :: rest =>
      if is_high_surrogate u then
        match rest with
        | l :: rest' =>
            if is_low_surrogate l then surrogate_pair u l :: to_scalar_values rest'
            else 0xFFFD :: to_scalar_values rest
        | [] => [0xFFFD]
        end
      else if is_low_surrogate u then 0xFFFD :: to_scalar_values rest
      else u :: to_scalar_values rest
  end.

(** The trailing bytes of the WHATWG UTF-8 encoder: while [count > 0],
    [0x80 | ((cp >> (6 * (count - 1))) & 0x3F)]. *)
Fixpoint continuation_bytes (count : nat) (cp : Z) : list Z :=
  match count with
  | O => []
  | S count' =>
      Z.lor 0x80 (Z.land (Z.shiftr cp (6 * Z.of_nat count')) 0x3F)
        :: continuation_bytes count' cp
  end.

Definition utf8_encode_code_point (cp : Z) : list Z :=
  if cp <=? 0x7F then [cp]
  else
    let '(count, offset) :=
      if cp <=? 0x7FF then (1%nat, 0xC0)
      else if cp <=? 0xFFFF then (2%nat, 0xE0)
      else (3%nat, 0xF0) in
    (Z.shiftr cp (6 * Z.of_nat count) + offset) :: continuation_bytes count cp.

(** UTF-8 encoding of a string: of its scalar values, one after the other. *)
Definition utf8_encode (input : jsstring) : list Z :=
  flat_map utf8_encode_code_point (to_scalar_values input).

(** [new TextEncoder().encode(input)]: the bytes of the Uint8Array. The
    parameter is optional with default "", which [undefined] selects. *)
Definition TextEncoder_encode (input : option jsstring) : list Z :=
  match input with
  | Some s => utf8_encode s
  | None => utf8_encode []
  end.

(** The state of the WHATWG UTF-8 decoder. *)
Record utf8_decoder := {
  code_point : Z;
  bytes_seen : Z;
  bytes_needed : Z;
  lower_boundary : Z;
  upper_boundary : Z
}.

Definition decoder_init : utf8_decoder :=
  {| code_point := 0; bytes_seen := 0; bytes_needed := 0;
     lower_boundary := 0x80; upper_boundary := 0xBF |}.

(** The handler when no byte is pending: the new state and the code points emitted. *)
Definition handle_lead (byte : Z) : utf8_decoder * list Z :=
  if (0x00 <=? byte) && (byte <=? 0x7F) then (decoder_init, [byte])
  else if (0xC2 <=? byte) && (byte <=? 0xDF) then
    ({| code_point := Z.land byte 0x1F; bytes_seen := 0; bytes_needed := 1;
        lower_boundary := 0x80; upper_boundary := 0xBF |}, [])
  else if (0xE0 <=? byte) && (byte <=? 0xEF) then
    ({| code_point := Z.land byte 0xF; bytes_seen := 0; bytes_needed := 2;
        lower_boundary := if byte =? 0xE0 then 0xA0 else 0x80;
        upper_boundary := if byte =? 0xED then 0x9F else 0xBF |}, [])
  else if (0xF0 <=? byte) && (byte <=? 0xF4) then
    ({| code_point := Z.land byte 0x7; bytes_seen := 0; bytes_needed := 3;
        lower_boundary := if byte =? 0xF0 then 0x90 else 0x80;
        upper_boundary := if byte =? 0xF4 then 0x8F else 0xBF |}, [])
  else (decoder_init, [0xFFFD]).

(** The handler on one byte. A byte outside the boundaries ends the pending
    sequence with an error (U+FFFD) and is then handled again as a lead byte. *)
Definition handle (d : utf8_decoder) (byte : Z) : utf8_decoder * list Z :=
  if bytes_needed d =? 0 then handle_lead byte
  else if negb ((lower_boundary d <=? byte) && (byte <=? upper_boundary d)) then
    let '(d', out) := handle_lead byte in (d', 0xFFFD :: out)
  else
    let cp := Z.lor (Z.shiftl (code_point d) 6) (Z.land byte 0x3F) in
    if bytes_seen d + 1 =? bytes_needed d then (decoder_init, [cp])
    else
      ({| code_point := cp; bytes_seen := bytes_seen d + 1;
          bytes_needed := bytes_needed d;
          lower_boundary := 0x80; upper_boundary := 0xBF |}, []).

(** Running the decoder to the end of the input; a pending sequence at the
    end of the input is an error. *)
Fixpoint utf8_decode_from (d : utf8_decoder) (bytes : list Z) : list Z :=
  match bytes with
  | [] => if bytes_needed d =? 0 then [] else [0xFFFD]
  | b :: rest => let '(d', out) := handle d b in out ++ utf8_decode_from d' rest
  end.

(** UTF16EncodeCodePoint. *)
Definition utf16_encode_code_point (cp : Z) : jsstring :=
  if cp <=? 0xFFFF then [cp]
  else [(cp - 0x10000) / 0x400 + 0xD800; (cp - 0x10000) mod 0x400 + 0xDC00].

(** UTF-8 decoding with replacement, no byte order mark handling. *)
Definition utf8_decode (bytes : list Z) : jsstring :=
  flat_map utf16_encode_code_point (utf8_decode_from decoder_init bytes).

(** [new TextDecoder().decode(bytes)]: UTF-8, not fatal, [ignoreBOM] false,
    so a leading U+FEFF is dropped from the output. *)
Definition TextDecoder_decode (bytes : list Z) : jsstring :=
  match utf8_decode_from decoder_init bytes with
  | cp :: rest =>
      if cp =? 0xFEFF then flat_map utf16_encode_code_point rest
      else flat_map utf16_encode_code_point (cp :: rest)
  | [] => []
  end.

(** A Unicode scalar value: a code point that is not a surrogate. *)
Definition scalar_value (cp : Z) : Prop :=
  0 <= cp < 0xD800 \/ 0xDFFF < cp <= 0x10FFFF.

(** Well-formed UTF-16: code units are 16-bit and every surrogate is part
    of a pair (high then low). *)
Fixpoint well_formed (s : jsstring) : bool :=
  match s with
  | [] => true
  | u :: rest =>
      if is_high_surrogate u then
        match rest with
        | l :: rest' => is_low_surrogate l && well_formed rest'
        | [] => false
        end
      else (0 <=? u) && (u <=? 0xFFFF) && negb (is_low_surrogate u) && well_formed rest
  end.

(** ** The class DpsConfig *)

(** [process.env]: a finite map from variable names to string values. *)
Abbreviation Env := (gmap jsstring jsstring) (only parsing).

(** The private fields; each is optional ([?:]), [None] standing for [undefined]. *)
Record DpsConfig := {
  domain : option jsstring;
  apiPath : option jsstring;
  developmentMode : option bool;
  authApiSubdomain : option jsstring;
  authApiPort : option number;
  authApiProtocol : option jsstring;
  authApiInsecureCookie : option bool;
  authApiSqliteMainFilePath : option jsstring;
  authApiSqliteMainPoolSize : option number;
  authApiSqliteCollectionFilePath : option jsstring;
  authApiSqliteCollectionPoolSize : option number;
  authApiSqliteSessionFilePath : option jsstring;
  authApiSqliteSessionPoolSize : option number;
  authApiSessionSecret : option jsstring;
  authApiSessionTtlSeconds : option number
}.

(** [a ?? b]: the right operand when the left one is [undefined]. *)
Definition nullish {A : Type} (a : option A) (b : A) : A :=
  match a with
  | Some x => x
  | None => b
  end.
Infix "??" := nullish (at level 60, right associativity).

Section WithEnv.
Variable env : Env.

Definition loadEnvString (prefix key : jsstring) : completion (option jsstring) :=
  let value := env !! (prefix ++ key) in
  test ← (if ToBoolean_string value
          then len ← get_length value; mret (0 <? len)
          else mret false);
  mret (if test : bool then value else None).

Definition loadEnvBool (prefix key : jsstring) : completion (option bool) :=
  let value := env !! (prefix ++ key) in
  mret (if bool_decide (value = Some (js "Y")) then Some true
        else if bool_decide (value = None) then None else Some false).

Definition loadEnvNumber (prefix key : jsstring) : completion (option number) :=
  let value := env !! (prefix ++ key) in
  test ← (if bool_decide (value = None) then mret true
          else len ← get_length value; mret (len =? 0));
  if test : bool then mret None
  else
    let parsed := parseInt (ToString_string value) 10 in
    mret (if isNaN parsed then None else Some parsed).

(** [new DpsConfig(envPrefix)]. *)
Definition DpsConfig_new (envPrefix : jsstring) : completion DpsConfig :=
  v0 ← loadEnvString envPrefix (js "DPS_DOMAIN");
  v1 ← loadEnvString envPrefix (js "DPS_API_PATH");
  v2 ← loadEnvBool envPrefix (js "DPS_DEVELOPMENT_MODE");
  v3 ← loadEnvString envPrefix (js "DPS_AUTH_API_SUBDOMAIN");
  v4 ← loadEnvNumber envPrefix (js "DPS_AUTH_API_PORT");
  v5 ← loadEnvString envPrefix (js "DPS_AUTH_API_PROTOCOL");
  v6 ← loadEnvBool envPrefix (js "DPS_AUTH_API_INSECURE_COOKIE");
  v7 ← loadEnvString envPrefix (js "DPS_AUTH_API_SQLITE_MAIN_FILE_PATH");
  v8 ← loadEnvNumber envPrefix (js "DPS_AUTH_API_SQLITE_MAIN_POOL_SIZE");
  v9 ← loadEnvString envPrefix (js "DPS_AUTH_API_SQLITE_COLLECTION_FILE_PATH");
  v10 ← loadEnvNumber envPrefix (js "DPS_AUTH_API_SQLITE_COLLECTION_POOL_SIZE");
  v11 ← loadEnvString envPrefix (js "DPS_AUTH_API_SQLITE_SESSION_FILE_PATH");
  v12 ← loadEnvNumber envPrefix (js "DPS_AUTH_API_SQLITE_SESSION_POOL_SIZE");
  v13 ← loadEnvString envPrefix (js "DPS_AUTH_API_SESSION_SECRET");
  v14 ← loadEnvNumber envPrefix (js "DPS_AUTH_API_SESSION_TTL_SECONDS");
  mret {|
    domain := v0;
    apiPath := v1;
    developmentMode := v2;
    authApiSubdomain := v3;
    authApiPort := v4;
    authApiProtocol := v5;
    authApiInsecureCookie := v6;
    authApiSqliteMainFilePath := v7;
    authApiSqliteMainPoolSize := v8;
    authApiSqliteCollectionFilePath := v9;
    authApiSqliteCollectionPoolSize := v10;
    authApiSqliteSessionFilePath := v11;
    authApiSqliteSessionPoolSize := v12;
    authApiSessionSecret := v13;
    authApiSessionTtlSeconds := v14 |}.
End WithEnv.

(** [new DpsConfig()]: the prefix defaults to the empty string. *)
Definition DpsConfig_new_default (env : Env) : completion DpsConfig :=
  DpsConfig_new env (js "").

(** The store with every field unset. *)
Definition blank : DpsConfig :=
  {| domain := None; apiPath := None; developmentMode := None;
     authApiSubdomain := None; authApiPort := None; authApiProtocol := None;
     authApiInsecureCookie := None; authApiSqliteMainFilePath := None;
     authApiSqliteMainPoolSize := None; authApiSqliteCollectionFilePath := None;
     authApiSqliteCollectionPoolSize := None; authApiSqliteSessionFilePath := None;
     authApiSqliteSessionPoolSize := None; authApiSessionSecret := None;
     authApiSessionTtlSeconds := None |}.

(** *** Getters and setters *)

Definition getDomain (c : DpsConfig) : jsstring := domain c ?? js "dps.localhost".

Definition setDomain (value : jsstring) (c : DpsConfig) : DpsConfig :=
  {| domain := Some value; apiPath := apiPath c; developmentMode := developmentMode c;
     authApiSubdomain := authApiSubdomain c; authApiPort := authApiPort c;
     authApiProtocol := authApiProtocol c; authApiInsecureCookie := authApiInsecureCookie c;
     authApiSqliteMainFilePath := authApiSqliteMainFilePath c;
     authApiSqliteMainPoolSize := authApiSqliteMainPoolSize c;
     authApiSqliteCollectionFilePath := authApiSqliteCollectionFilePath c;
     authApiSqliteCollectionPoolSize := authApiSqliteCollectionPoolSize c;
     authApiSqliteSessionFilePath := authApiSqliteSessionFilePath c;
     authApiSqliteSessionPoolSize := authApiSqliteSessionPoolSize c;
     authApiSessionSecret := authApiSessionSecret c;
     authApiSessionTtlSeconds := authApiSessionTtlSeconds c |}.

Definition getApiPath (c : DpsConfig) : jsstring := apiPath c ?? js "api".

Definition setApiPath (value : jsstring) (c : DpsConfig) : DpsConfig :=
  {| domain := domain c; apiPath := Some value; developmentMode := developmentMode c;
     authApiSubdomain := authApiSubdomain c; authApiPort := authApiPort c;
     authApiProtocol := authApiProtocol c; authApiInsecureCookie := authApiInsecureCookie c;
     authApiSqliteMainFilePath := authApiSqliteMainFilePath c;
     authApiSqliteMainPoolSize := authApiSqliteMainPoolSize c;
     authApiSqliteCollectionFilePath := authApiSqliteCollectionFilePath c;
     authApiSqliteCollectionPoolSize := authApiSqliteCollectionPoolSize c;
     authApiSqliteSessionFilePath := authApiSqliteSessionFilePath c;
     authApiSqliteSessionPoolSize := authApiSqliteSessionPoolSize c;
     authApiSessionSecret := authApiSessionSecret c;
     authApiSessionTtlSeconds := authApiSessionTtlSeconds c |}.

Definition getDevelopmentMode (c : DpsConfig) : bool := developmentMode c ?? false.

Definition setDevelopmentMode (value : bool) (c : DpsConfig) : DpsConfig :=
  {| domain := domain c; apiPath := apiPath c; developmentMode := Some value;
     authApiSubdomain := authApiSubdomain c; authApiPort := authApiPort c;
     authApiProtocol := authApiProtocol c; authApiInsecureCookie := authApiInsecureCookie c;
     authApiSqliteMainFilePath := authApiSqliteMainFilePath c;
     authApiSqliteMainPoolSize := authApiSqliteMainPoolSize c;
     authApiSqliteCollectionFilePath := authApiSqliteCollectionFilePath c;
     authApiSqliteCollectionPoolSize := authApiSqliteCollectionPoolSize c;
     authApiSqliteSessionFilePath := authApiSqliteSessionFilePath c;
     authApiSqliteSessionPoolSize := authApiSqliteSessionPoolSize c;
     authApiSessionSecret := authApiSessionSecret c;
     authApiSessionTtlSeconds := authApiSessionTtlSeconds c |}.

Definition getAuthApiSubdomain (c : DpsConfig) : jsstring :=
  authApiSubdomain c ?? js "auth".

Definition setAuthApiSubdomain (value : jsstring) (c : DpsConfig) : DpsConfig :=
  {| domain := domain c; apiPath := apiPath c; developmentMode := developmentMode c;
     authApiSubdomain := Some value; authApiPort := authApiPort c;
     authApiProtocol := authApiProtocol c; authApiInsecureCookie := authApiInsecureCookie c;
     authApiSqliteMainFilePath := authApiSqliteMainFilePath c;
     authApiSqliteMainPoolSize := authApiSqliteMainPoolSize c;
     authApiSqliteCollectionFilePath := authApiSqliteCollectionFilePath c;
     authApiSqliteCollectionPoolSize := authApiSqliteCollectionPoolSize c;
     authApiSqliteSessionFilePath := authApiSqliteSessionFilePath c;
     authApiSqliteSessionPoolSize := authApiSqliteSessionPoolSize c;
     authApiSessionSecret := authApiSessionSecret c;
     authApiSessionTtlSeconds := authApiSessionTtlSeconds c |}.

Definition getAuthApiPort (c : DpsConfig) : option number := authApiPort c.

Definition setAuthApiPort (value : option number) (c : DpsConfig) : DpsConfig :=
  {| domain := domain c; apiPath := apiPath c; developmentMode := developmentMode c;
     authApiSubdomain := authApiSubdomain c; authApiPort := value;
     authApiProtocol := authApiProtocol c; authApiInsecureCookie := authApiInsecureCookie c;
     authApiSqliteMainFilePath := authApiSqliteMainFilePath c;
     authApiSqliteMainPoolSize := authApiSqliteMainPoolSize c;
     authApiSqliteCollectionFilePath := authApiSqliteCollectionFilePath c;
     authApiSqliteCollectionPoolSize := authApiSqliteCollectionPoolSize c;
     authApiSqliteSessionFilePath := authApiSqliteSessionFilePath c;
     authApiSqliteSessionPoolSize := authApiSqliteSessionPoolSize c;
     authApiSessionSecret := authApiSessionSecret c;
     authApiSessionTtlSeconds := authApiSessionTtlSeconds c |}.

Definition getAuthApiProtocol (c : DpsConfig) : jsstring :=
  authApiProtocol c ?? js "https".

Definition setAuthApiProtocol (value : jsstring) (c : DpsConfig) : DpsConfig :=
  {| domain := domain c; apiPath := apiPath c; developmentMode := developmentMode c;
     authApiSubdomain := authApiSubdomain c; authApiPort := authApiPort c;
     authApiProtocol := Some value; authApiInsecureCookie := authApiInsecureCookie c;
     authApiSqliteMainFilePath := authApiSqliteMainFilePath c;
     authApiSqliteMainPoolSize := authApiSqliteMainPoolSize c;
     authApiSqliteCollectionFilePath := authApiSqliteCollectionFilePath c;
     authApiSqliteCollectionPoolSize := authApiSqliteCollectionPoolSize c;
     authApiSqliteSessionFilePath := authApiSqliteSessionFilePath c;
     authApiSqliteSessionPoolSize := authApiSqliteSessionPoolSize c;
     authApiSessionSecret := authApiSessionSecret c;
     authApiSessionTtlSeconds := authApiSessionTtlSeconds c |}.

Definition getAuthApiInsecureCookie (c : DpsConfig) : bool :=
  authApiInsecureCookie c ?? false.

Definition setAuthApiInsecureCookie (value : bool) (c : DpsConfig) : DpsConfig :=
  {| domain := domain c; apiPath := apiPath c; developmentMode := developmentMode c;
     authApiSubdomain := authApiSubdomain c; authApiPort := authApiPort c;
     authApiProtocol := authApiProtocol c; authApiInsecureCookie := Some value;
     authApiSqliteMainFilePath := authApiSqliteMainFilePath c;
     authApiSqliteMainPoolSize := authApiSqliteMainPoolSize c;
     authApiSqliteCollectionFilePath := authApiSqliteCollectionFilePath c;
     authApiSqliteCollectionPoolSize := authApiSqliteCollectionPoolSize c;
     authApiSqliteSessionFilePath := authApiSqliteSessionFilePath c;
     authApiSqliteSessionPoolSize := authApiSqliteSessionPoolSize c;
     authApiSessionSecret := authApiSessionSecret c;
     authApiSessionTtlSeconds := authApiSessionTtlSeconds c |}.

Definition getAuthApiSqliteMainFilePath (c : DpsConfig) : jsstring :=
  authApiSqliteMainFilePath c ?? js "data/main-development.db".

Definition setAuthApiSqliteMainFilePath (value : jsstring) (c : DpsConfig) : DpsConfig :=
  {| domain := domain c; apiPath := apiPath c; developmentMode := developmentMode c;
     authApiSubdomain := authApiSubdomain c; authApiPort := authApiPort c;
     authApiProtocol := authApiProtocol c; authApiInsecureCookie := authApiInsecureCookie c;
     authApiSqliteMainFilePath := Some value;
     authApiSqliteMainPoolSize := authApiSqliteMainPoolSize c;
     authApiSqliteCollectionFilePath := authApiSqliteCollectionFilePath c;
     authApiSqliteCollectionPoolSize := authApiSqliteCollectionPoolSize c;
     authApiSqliteSessionFilePath := authApiSqliteSessionFilePath c;
     authApiSqliteSessionPoolSize := authApiSqliteSessionPoolSize c;
     authApiSessionSecret := authApiSessionSecret c;
     authApiSessionTtlSeconds := authApiSessionTtlSeconds c |}.

Definition getAuthApiSqliteMainPoolSize (c : DpsConfig) : number :=
  authApiSqliteMainPoolSize c ?? Number_of_Z 1.

Definition setAuthApiSqliteMainPoolSize (value : option number) (c : DpsConfig) : DpsConfig :=
  {| domain := domain c; apiPath := apiPath c; developmentMode := developmentMode c;
     authApiSubdomain := authApiSubdomain c; authApiPort := authApiPort c;
     authApiProtocol := authApiProtocol c; authApiInsecureCookie := authApiInsecureCookie c;
     authApiSqliteMainFilePath := authApiSqliteMainFilePath c;
     authApiSqliteMainPoolSize := value;
     authApiSqliteCollectionFilePath := authApiSqliteCollectionFilePath c;
     authApiSqliteCollectionPoolSize := authApiSqliteCollectionPoolSize c;
     authApiSqliteSessionFilePath := authApiSqliteSessionFilePath c;
     authApiSqliteSessionPoolSize := authApiSqliteSessionPoolSize c;
     authApiSessionSecret := authApiSessionSecret c;
     authApiSessionTtlSeconds := authApiSessionTtlSeconds c |}.

Definition getAuthApiSqliteCollectionFilePath (c : DpsConfig) : jsstring :=
  authApiSqliteCollectionFilePath c ?? js "data/collection-development.db".

Definition setAuthApiSqliteCollectionFilePath (value : jsstring) (c : DpsConfig) : DpsConfig :=
  {| domain := domain c; apiPath := apiPath c; developmentMode := developmentMode c;
     authApiSubdomain := authApiSubdomain c; authApiPort := authApiPort c;
     authApiProtocol := authApiProtocol c; authApiInsecureCookie := authApiInsecureCookie c;
     authApiSqliteMainFilePath := authApiSqliteMainFilePath c;
     authApiSqliteMainPoolSize := authApiSqliteMainPoolSize c;
     authApiSqliteCollectionFilePath := Some value;
     authApiSqliteCollectionPoolSize := authApiSqliteCollectionPoolSize c;
     authApiSqliteSessionFilePath := authApiSqliteSessionFilePath c;
     authApiSqliteSessionPoolSize := authApiSqliteSessionPoolSize c;
     authApiSessionSecret := authApiSessionSecret c;
     authApiSessionTtlSeconds := authApiSessionTtlSeconds c |}.

Definition getAuthApiSqliteCollectionPoolSize (c : DpsConfig) : number :=
  authApiSqliteCollectionPoolSize c ?? Number_of_Z 1.

Definition setAuthApiSqliteCollectionPoolSize (value : option number) (c : DpsConfig) : DpsConfig :=
  {| domain := domain c; apiPath := apiPath c; developmentMode := developmentMode c;
     authApiSubdomain := authApiSubdomain c; authApiPort := authApiPort c;
     authApiProtocol := authApiProtocol c; authApiInsecureCookie := authApiInsecureCookie c;
     authApiSqliteMainFilePath := authApiSqliteMainFilePath c;
     authApiSqliteMainPoolSize := authApiSqliteMainPoolSize c;
     authApiSqliteCollectionFilePath := authApiSqliteCollectionFilePath c;
     authApiSqliteCollectionPoolSize := value;
     authApiSqliteSessionFilePath := authApiSqliteSessionFilePath c;
     authApiSqliteSessionPoolSize := authApiSqliteSessionPoolSize c;
     authApiSessionSecret := authApiSessionSecret c;
     authApiSessionTtlSeconds := authApiSessionTtlSeconds c |}.

Definition getAuthApiSqliteSessionFilePath (c : DpsConfig) : jsstring :=
  authApiSqliteSessionFilePath c ?? js "data/session-development.db".

Definition setAuthApiSqliteSessionFilePath (value : jsstring) (c : DpsConfig) : DpsConfig :=
  {| domain := domain c; apiPath := apiPath c; developmentMode := developmentMode c;
     authApiSubdomain := authApiSubdomain c; authApiPort := authApiPort c;
     authApiProtocol := authApiProtocol c; authApiInsecureCookie := authApiInsecureCookie c;
     authApiSqliteMainFilePath := authApiSqliteMainFilePath c;
     authApiSqliteMainPoolSize := authApiSqliteMainPoolSize c;
     authApiSqliteCollectionFilePath := authApiSqliteCollectionFilePath c;
     authApiSqliteCollectionPoolSize := authApiSqliteCollectionPoolSize c;
     authApiSqliteSessionFilePath := Some value;
     authApiSqliteSessionPoolSize := authApiSqliteSessionPoolSize c;
     authApiSessionSecret := authApiSessionSecret c;
     authApiSessionTtlSeconds := authApiSessionTtlSeconds c |}.

Definition getAuthApiSqliteSessionPoolSize (c : DpsConfig) : number :=
  authApiSqliteSessionPoolSize c ?? Number_of_Z 1.

Definition setAuthApiSqliteSessionPoolSize (value : option number) (c : DpsConfig) : DpsConfig :=
  {| domain := domain c; apiPath := apiPath c; developmentMode := developmentMode c;
     authApiSubdomain := authApiSubdomain c; authApiPort := authApiPort c;
     authApiProtocol := authApiProtocol c; authApiInsecureCookie := authApiInsecureCookie c;
     authApiSqliteMainFilePath := authApiSqliteMainFilePath c;
     authApiSqliteMainPoolSize := authApiSqliteMainPoolSize c;
     authApiSqliteCollectionFilePath := authApiSqliteCollectionFilePath c;
     authApiSqliteCollectionPoolSize := authApiSqliteCollectionPoolSize c;
     authApiSqliteSessionFilePath := authApiSqliteSessionFilePath c;
     authApiSqliteSessionPoolSize := value; authApiSessionSecret := authApiSessionSecret c;
     authApiSessionTtlSeconds := authApiSessionTtlSeconds c |}.

Definition getAuthApiSessionSecret (c : DpsConfig) : option jsstring :=
  authApiSessionSecret c.

Definition setAuthApiSessionSecret (value : option jsstring) (c : DpsConfig) : DpsConfig :=
  {| domain := domain c; apiPath := apiPath c; developmentMode := developmentMode c;
     authApiSubdomain := authApiSubdomain c; authApiPort := authApiPort c;
     authApiProtocol := authApiProtocol c; authApiInsecureCookie := authApiInsecureCookie c;
     authApiSqliteMainFilePath := authApiSqliteMainFilePath c;
     authApiSqliteMainPoolSize := authApiSqliteMainPoolSize c;
     authApiSqliteCollectionFilePath := authApiSqliteCollectionFilePath c;
     authApiSqliteCollectionPoolSize := authApiSqliteCollectionPoolSize c;
     authApiSqliteSessionFilePath := authApiSqliteSessionFilePath c;
     authApiSqliteSessionPoolSize := authApiSqliteSessionPoolSize c;
     authApiSessionSecret := value;
     authApiSessionTtlSeconds := authApiSessionTtlSeconds c |}.

Definition getAuthApiSessionTtlSeconds (c : DpsConfig) : number :=
  authApiSessionTtlSeconds c ?? Number_of_Z 1209600.

Definition setAuthApiSessionTtlSeconds (value : option number) (c : DpsConfig) : DpsConfig :=
  {| domain := domain c; apiPath := apiPath c; developmentMode := developmentMode c;
     authApiSubdomain := authApiSubdomain c; authApiPort := authApiPort c;
     authApiProtocol := authApiProtocol c; authApiInsecureCookie := authApiInsecureCookie c;
     authApiSqliteMainFilePath := authApiSqliteMainFilePath c;
     authApiSqliteMainPoolSize := authApiSqliteMainPoolSize c;
     authApiSqliteCollectionFilePath := authApiSqliteCollectionFilePath c;
     authApiSqliteCollectionPoolSize := authApiSqliteCollectionPoolSize c;
     authApiSqliteSessionFilePath := authApiSqliteSessionFilePath c;
     authApiSqliteSessionPoolSize := authApiSqliteSessionPoolSize c;
     authApiSessionSecret := authApiSessionSecret c;
     authApiSessionTtlSeconds := value |}.

(** *** Computed getters *)

Definition getAuthApiSessionSecretBytes (c : DpsConfig) : option (list Z) :=
  if bool_decide (authApiSessionSecret c = None) then None
  else Some (TextEncoder_encode (authApiSessionSecret c)).

Definition getAuthApiUrl (c : DpsConfig) : jsstring :=
  let protocol := getAuthApiProtocol c in
  let authSub := getAuthApiSubdomain c in
  let domain := getDomain c in
  let apiPath := getApiPath c in
  let port := getAuthApiPort c in
  let portString :=
    if ToBoolean_number port then js ":" ++ ToString_number port else js "" in
  protocol ++ js "://" ++ authSub ++ js "." ++ domain ++ portString ++ js "/" ++ apiPath.

(** ** The settings as a family *)

Inductive Setting :=
| Domain
| ApiPath
| DevelopmentMode
| AuthApiSubdomain
| AuthApiPort
| AuthApiProtocol
| AuthApiInsecureCookie
| AuthApiSqliteMainFilePath
| AuthApiSqliteMainPoolSize
| AuthApiSqliteCollectionFilePath
| AuthApiSqliteCollectionPoolSize
| AuthApiSqliteSessionFilePath
| AuthApiSqliteSessionPoolSize
| AuthApiSessionSecret
| AuthApiSessionTtlSeconds.

#[global] Instance Setting_eq_dec : EqDecision Setting.
Proof. solve_decision. Defined.

Definition all_settings : list Setting :=
  [Domain; ApiPath; DevelopmentMode; AuthApiSubdomain; AuthApiPort; AuthApiProtocol;
   AuthApiInsecureCookie; AuthApiSqliteMainFilePath; AuthApiSqliteMainPoolSize;
   AuthApiSqliteCollectionFilePath; AuthApiSqliteCollectionPoolSize;
   AuthApiSqliteSessionFilePath; AuthApiSqliteSessionPoolSize; AuthApiSessionSecret;
   AuthApiSessionTtlSeconds].

(** The name of the environment variable a setting is loaded from. *)
Definition env_name (s : Setting) : jsstring :=
  match s with
  | Domain => js "DPS_DOMAIN"
  | ApiPath => js "DPS_API_PATH"
  | DevelopmentMode => js "DPS_DEVELOPMENT_MODE"
  | AuthApiSubdomain => js "DPS_AUTH_API_SUBDOMAIN"
  | AuthApiPort => js "DPS_AUTH_API_PORT"
  | AuthApiProtocol => js "DPS_AUTH_API_PROTOCOL"
  | AuthApiInsecureCookie => js "DPS_AUTH_API_INSECURE_COOKIE"
  | AuthApiSqliteMainFilePath => js "DPS_AUTH_API_SQLITE_MAIN_FILE_PATH"
  | AuthApiSqliteMainPoolSize => js "DPS_AUTH_API_SQLITE_MAIN_POOL_SIZE"
  | AuthApiSqliteCollectionFilePath => js "DPS_AUTH_API_SQLITE_COLLECTION_FILE_PATH"
  | AuthApiSqliteCollectionPoolSize => js "DPS_AUTH_API_SQLITE_COLLECTION_POOL_SIZE"
  | AuthApiSqliteSessionFilePath => js "DPS_AUTH_API_SQLITE_SESSION_FILE_PATH"
  | AuthApiSqliteSessionPoolSize => js "DPS_AUTH_API_SQLITE_SESSION_POOL_SIZE"
  | AuthApiSessionSecret => js "DPS_AUTH_API_SESSION_SECRET"
  | AuthApiSessionTtlSeconds => js "DPS_AUTH_API_SESSION_TTL_SECONDS"
  end.

(** TypeScript types of the settings, and the values that inhabit them. *)
Inductive TsType := TString | TNumber | TBoolean.

Inductive JsValue :=
| VUndefined
| VString (s : jsstring)
| VNumber (n : number)
| VBoolean (b : bool).

Definition has_type (v : JsValue) (t : TsType) : bool :=
  match v, t with
  | VString _, TString | VNumber _, TNumber | VBoolean _, TBoolean => true
  | _, _ => false
  end.

Definition setting_type (s : Setting) : TsType :=
  match s with
  | Domain => TString
  | ApiPath => TString
  | DevelopmentMode => TBoolean
  | AuthApiSubdomain => TString
  | AuthApiPort => TNumber
  | AuthApiProtocol => TString
  | AuthApiInsecureCookie => TBoolean
  | AuthApiSqliteMainFilePath => TString
  | AuthApiSqliteMainPoolSize => TNumber
  | AuthApiSqliteCollectionFilePath => TString
  | AuthApiSqliteCollectionPoolSize => TNumber
  | AuthApiSqliteSessionFilePath => TString
  | AuthApiSqliteSessionPoolSize => TNumber
  | AuthApiSessionSecret => TString
  | AuthApiSessionTtlSeconds => TNumber
  end.

(** The default a getter falls back to, [None] for the two settings without one. *)
Definition default_value (s : Setting) : option JsValue :=
  match s with
  | Domain => Some (VString (js "dps.localhost"))
  | ApiPath => Some (VString (js "api"))
  | DevelopmentMode => Some (VBoolean false)
  | AuthApiSubdomain => Some (VString (js "auth"))
  | AuthApiPort => None
  | AuthApiProtocol => Some (VString (js "https"))
  | AuthApiInsecureCookie => Some (VBoolean false)
  | AuthApiSqliteMainFilePath => Some (VString (js "data/main-development.db"))
  | AuthApiSqliteMainPoolSize => Some (VNumber (Number_of_Z 1))
  | AuthApiSqliteCollectionFilePath => Some (VString (js "data/collection-development.db"))
  | AuthApiSqliteCollectionPoolSize => Some (VNumber (Number_of_Z 1))
  | AuthApiSqliteSessionFilePath => Some (VString (js "data/session-development.db"))
  | AuthApiSqliteSessionPoolSize => Some (VNumber (Number_of_Z 1))
  | AuthApiSessionSecret => None
  | AuthApiSessionTtlSeconds => Some (VNumber (Number_of_Z 1209600))
  end.

Definition of_string (v : option jsstring) : JsValue :=
  match v with Some s => VString s | None => VUndefined end.
Definition of_number (v : option number) : JsValue :=
  match v with Some n => VNumber n | None => VUndefined end.

(** The result of the getter of a setting. *)
Definition getter (s : Setting) (c : DpsConfig) : JsValue :=
  match s with
  | Domain => VString (getDomain c)
  | ApiPath => VString (getApiPath c)
  | DevelopmentMode => VBoolean (getDevelopmentMode c)
  | AuthApiSubdomain => VString (getAuthApiSubdomain c)
  | AuthApiPort => of_number (getAuthApiPort c)
  | AuthApiProtocol => VString (getAuthApiProtocol c)
  | AuthApiInsecureCookie => VBoolean (getAuthApiInsecureCookie c)
  | AuthApiSqliteMainFilePath => VString (getAuthApiSqliteMainFilePath c)
  | AuthApiSqliteMainPoolSize => VNumber (getAuthApiSqliteMainPoolSize c)
  | AuthApiSqliteCollectionFilePath => VString (getAuthApiSqliteCollectionFilePath c)
  | AuthApiSqliteCollectionPoolSize => VNumber (getAuthApiSqliteCollectionPoolSize c)
  | AuthApiSqliteSessionFilePath => VString (getAuthApiSqliteSessionFilePath c)
  | AuthApiSqliteSessionPoolSize => VNumber (getAuthApiSqliteSessionPoolSize c)
  | AuthApiSessionSecret => of_string (getAuthApiSessionSecret c)
  | AuthApiSessionTtlSeconds => VNumber (getAuthApiSessionTtlSeconds c)
  end.

(** A call of the setter of a setting; [None] when the argument is not of
    the declared parameter type ([string], [boolean], [number | undefined]
    or [string | undefined]), a call the type checker rejects. *)
Definition setter (s : Setting) (v : JsValue) (c : DpsConfig) : option DpsConfig :=
  match s, v with
  | Domain, VString x => Some (setDomain x c)
  | ApiPath, VString x => Some (setApiPath x c)
  | DevelopmentMode, VBoolean x => Some (setDevelopmentMode x c)
  | AuthApiSubdomain, VString x => Some (setAuthApiSubdomain x c)
  | AuthApiPort, VNumber x => Some (setAuthApiPort (Some x) c)
  | AuthApiPort, VUndefined => Some (setAuthApiPort None c)
  | AuthApiProtocol, VString x => Some (setAuthApiProtocol x c)
  | AuthApiInsecureCookie, VBoolean x => Some (setAuthApiInsecureCookie x c)
  | AuthApiSqliteMainFilePath, VString x => Some (setAuthApiSqliteMainFilePath x c)
  | AuthApiSqliteMainPoolSize, VNumber x => Some (setAuthApiSqliteMainPoolSize (Some x) c)
  | AuthApiSqliteMainPoolSize, VUndefined => Some (setAuthApiSqliteMainPoolSize None c)
  | AuthApiSqliteCollectionFilePath, VString x => Some (setAuthApiSqliteCollectionFilePath x c)
  | AuthApiSqliteCollectionPoolSize, VNumber x => Some (setAuthApiSqliteCollectionPoolSize (Some x) c)
  | AuthApiSqliteCollectionPoolSize, VUndefined => Some (setAuthApiSqliteCollectionPoolSize None c)
  | AuthApiSqliteSessionFilePath, VString x => Some (setAuthApiSqliteSessionFilePath x c)
  | AuthApiSqliteSessionPoolSize, VNumber x => Some (setAuthApiSqliteSessionPoolSize (Some x) c)
  | AuthApiSqliteSessionPoolSize, VUndefined => Some (setAuthApiSqliteSessionPoolSize None c)
  | AuthApiSessionSecret, VString x => Some (setAuthApiSessionSecret (Some x) c)
  | AuthApiSessionSecret, VUndefined => Some (setAuthApiSessionSecret None c)
  | AuthApiSessionTtlSeconds, VNumber x => Some (setAuthApiSessionTtlSeconds (Some x) c)
  | AuthApiSessionTtlSeconds, VUndefined => Some (setAuthApiSessionTtlSeconds None c)
  | _, _ => None
  end.

Definition of_boolean (v : option bool) : JsValue :=
  match v with Some b => VBoolean b | None => VUndefined end.

(** The private field behind a setting, [VUndefined] when it is unset. *)
Definition stored (s : Setting) (c : DpsConfig) : JsValue :=
  match s with
  | Domain => of_string (domain c)
  | ApiPath => of_string (apiPath c)
  | DevelopmentMode => of_boolean (developmentMode c)
  | AuthApiSubdomain => of_string (authApiSubdomain c)
  | AuthApiPort => of_number (authApiPort c)
  | AuthApiProtocol => of_string (authApiProtocol c)
  | AuthApiInsecureCookie => of_boolean (authApiInsecureCookie c)
  | AuthApiSqliteMainFilePath => of_string (authApiSqliteMainFilePath c)
  | AuthApiSqliteMainPoolSize => of_number (authApiSqliteMainPoolSize c)
  | AuthApiSqliteCollectionFilePath => of_string (authApiSqliteCollectionFilePath c)
  | AuthApiSqliteCollectionPoolSize => of_number (authApiSqliteCollectionPoolSize c)
  | AuthApiSqliteSessionFilePath => of_string (authApiSqliteSessionFilePath c)
  | AuthApiSqliteSessionPoolSize => of_number (authApiSqliteSessionPoolSize c)
  | AuthApiSessionSecret => of_string (authApiSessionSecret c)
  | AuthApiSessionTtlSeconds => of_number (authApiSessionTtlSeconds c)
  end.

(** The loader call the constructor makes for a setting. *)
Definition load (env : Env) (envPrefix : jsstring) (s : Setting) : completion JsValue :=
  match setting_type s with
  | TString => of_string <$> loadEnvString env envPrefix (env_name s)
  | TNumber => of_number <$> loadEnvNumber env envPrefix (env_name s)
  | TBoolean => of_boolean <$> loadEnvBool env envPrefix (env_name s)
  end.

(** Everything a caller can read from a store: the fifteen getters and the
    two computed getters. *)
Definition observe (c : DpsConfig) : list JsValue * jsstring * option (list Z) :=
  (map (fun s => getter s c) all_settings, getAuthApiUrl c, getAuthApiSessionSecretBytes c).

(** ** Integer strings *)

(** A decimal numeral (one or more of the digits 0 to 9) and the integer it writes. *)
Inductive decimal_numeral : jsstring -> Z -> Prop :=
| numeral_digit d :
    0 <= d <= 9 -> decimal_numeral [0x30 + d] d
| numeral_snoc ds z d :
    decimal_numeral ds z -> 0 <= d <= 9 ->
    decimal_numeral (ds ++ [0x30 + d]) (10 * z + d).

(** An integer string: a decimal numeral with an optional sign; [negative]
    tells whether the sign is a minus. *)
Inductive integer_string : jsstring -> bool -> Z -> Prop :=
| integer_plain ds z : decimal_numeral ds z -> integer_string ds false z
| integer_plus ds z : decimal_numeral ds z -> integer_string (0x2B :: ds) false z
| integer_minus ds z : decimal_numeral ds z -> integer_string (0x2D :: ds) true z.

(** The Number for an integer of magnitude [z] read with the given sign:
    a zero keeps the sign, anything else is rounded to binary64. *)
Definition signed_number (negative : bool) (z : Z) : number :=
  if z =? 0 then S754_zero negative
  else Number_of_Z (if negative then - z else z).

(** Text that is empty or starts with a code unit that is not a decimal
    digit: where parseInt stops reading digits. *)
Definition stops_digits (t : jsstring) : Prop :=
  match t with
  | [] => True
  | u :: _ => is_radix_digit 10 u = false
  end.

(** A value in which parseInt finds no integer: after the leading white
    space and one optional sign, the text is empty or starts with a code
    unit that is not a decimal digit. *)
Inductive no_leading_integer : jsstring -> Prop :=
| no_integer_after_space u rest :
    is_white_space u = true -> no_leading_integer rest ->
    no_leading_integer (u :: rest)
| no_integer_after_sign u t :
    u = 0x2B \/ u = 0x2D -> stops_digits t -> no_leading_integer (u :: t)
| no_integer_at_all t :
    stops_digits t ->
    match t with
    | u :: _ => is_white_space u = false /\ u <> 0x2B /\ u <> 0x2D
    | [] => True
    end ->
    no_leading_integer t.

(** ** Method calls *)

(** The public methods of a store: the fifteen getters, the fifteen
    setters with their argument, and the two computed getters. *)
Inductive Method :=
| CallGetter (s : Setting)
| CallSetter (s : Setting) (v : JsValue)
| CallGetAuthApiUrl
| CallGetAuthApiSessionSecretBytes.

(** What a method call hands back: a value, or the optional byte array. *)
Inductive Returned :=
| ReturnedValue (v : JsValue)
| ReturnedBytes (bytes : option (list Z)).

(** A method call on a store: the completion of the call, with the store
    after the call and what was returned. A setter returns [undefined]. The
    result is [None] for a setter call whose argument is not of the declared
    parameter type, which is not a call of a type-checked program. None of
    the method bodies contains an operation that can throw: they read or
    assign a field of [this], apply [??], build a template literal over
    strings and a Number, or call [TextEncoder.encode] on a string. *)
Definition call (m : Method) (c : DpsConfig) : option (completion (DpsConfig * Returned)) :=
  match m with
  | CallGetter s => Some (mret (c, ReturnedValue (getter s c)))
  | CallSetter s v =>
      match setter s v c with
      | Some c' => Some (mret (c', ReturnedValue VUndefined))
      | None => None
      end
  | CallGetAuthApiUrl => Some (mret (c, ReturnedValue (VString (getAuthApiUrl c))))
  | CallGetAuthApiSessionSecretBytes =>
      Some (mret (c, ReturnedBytes (getAuthApiSessionSecretBytes c)))
  end.

(** * Properties *)

(** ** The loaders return normally *)

Section Loaders.
Variable env : Env.
Variables prefix key : jsstring.

Lemma loadEnvString_normal :
  loadEnvString env prefix key =
  Normal (match env !! (prefix ++ key) with
          | Some (u :: rest) => Some (u :: rest)
          | _ => None
          end).
Proof.
  unfold loadEnvString.
  destruct (env !! (prefix ++ key)) as [[|u rest]|]; reflexivity.
Qed.

Lemma loadEnvBool_normal :
  loadEnvBool env prefix key =
  Normal (match env !! (prefix ++ key) with
          | Some v => Some (bool_decide (v = js "Y"))
          | None => None
          end).
Proof.
  unfold loadEnvBool.
  destruct (env !! (prefix ++ key)) as [v|]; [|reflexivity].
  destruct (decide (v = js "Y")) as [->|Hne].
  - reflexivity.
  - rewrite (bool_decide_eq_false_2 (Some v = Some (js "Y"))) by congruence.
    rewrite (bool_decide_eq_false_2 (v = js "Y")) by assumption.
    reflexivity.
Qed.

Lemma loadEnvNumber_normal :
  loadEnvNumber env prefix key =
  Normal (match env !! (prefix ++ key) with
          | Some (u :: rest) =>
              if isNaN (parseInt (u :: rest) 10) then None
              else Some (parseInt (u :: rest) 10)
          | _ => None
          end).
Proof.
  unfold loadEnvNumber.
  destruct (env !! (prefix ++ key)) as [[|u rest]|]; reflexivity.
Qed.

End Loaders.

(** Rewriting with the three equations evaluates a constructor call. *)
Ltac run_loaders :=
  rewrite ?loadEnvString_normal, ?loadEnvBool_normal, ?loadEnvNumber_normal.

(** The constructor returns a store whose fields are what the loaders
    return, each for the variable of its setting. *)
Lemma DpsConfig_new_normal (env : Env) (envPrefix : jsstring) :
  exists c, DpsConfig_new env envPrefix = Normal c /\
            forall s, load env envPrefix s = Normal (stored s c).
Proof.
  unfold DpsConfig_new. run_loaders. cbn [mbind completion_bind mret completion_ret].
  eexists; split; [reflexivity|].
  intros []; unfold load; cbn [setting_type env_name]; run_loaders; reflexivity.
Qed.

(** ** Getters read the field or fall back to the default *)

Create HintDb getters.
#[local] Hint Unfold getDomain getApiPath getDevelopmentMode getAuthApiSubdomain
  getAuthApiPort getAuthApiProtocol getAuthApiInsecureCookie
  getAuthApiSqliteMainFilePath getAuthApiSqliteMainPoolSize
  getAuthApiSqliteCollectionFilePath getAuthApiSqliteCollectionPoolSize
  getAuthApiSqliteSessionFilePath getAuthApiSqliteSessionPoolSize
  getAuthApiSessionSecret getAuthApiSessionTtlSeconds : getters.

Lemma getter_stored (s : Setting) (c : DpsConfig) :
  getter s c =
  match stored s c with
  | VUndefined => default VUndefined (default_value s)
  | v => v
  end.
Proof.
  destruct s; cbn [getter stored default_value default];
    autounfold with getters;
    match goal with
    | |- context [of_string ?x] => destruct x
    | |- context [of_number ?x] => destruct x
    | |- context [of_boolean ?x] => destruct x
    end; reflexivity.
Qed.

Lemma getter_unset (s : Setting) (c : DpsConfig) :
  stored s c = VUndefined -> getter s c = default VUndefined (default_value s).
Proof. intros H. rewrite getter_stored, H. reflexivity. Qed.

Lemma getter_set (s : Setting) (c : DpsConfig) (v : JsValue) :
  stored s c = v -> v <> VUndefined -> getter s c = v.
Proof. intros H Hv. rewrite getter_stored, H. destruct v; congruence. Qed.

(** What [load] returns, by the type of the setting. *)
Lemma load_boolean (env : Env) (p : jsstring) (s : Setting) :
  setting_type s = TBoolean ->
  load env p s = of_boolean <$> loadEnvBool env p (env_name s).
Proof. intros H. unfold load. rewrite H. reflexivity. Qed.

Lemma load_number (env : Env) (p : jsstring) (s : Setting) :
  setting_type s = TNumber ->
  load env p s = of_number <$> loadEnvNumber env p (env_name s).
Proof. intros H. unfold load. rewrite H. reflexivity. Qed.

Lemma load_string (env : Env) (p : jsstring) (s : Setting) :
  setting_type s = TString ->
  load env p s = of_string <$> loadEnvString env p (env_name s).
Proof. intros H. unfold load. rewrite H. reflexivity. Qed.

Lemma Normal_inj {A : Type} (x y : A) : Normal x = Normal y -> x = y.
Proof. congruence. Qed.

(** ** The boolean loader *)

(** C1. The boolean loader yields [true] exactly for the raw value "Y",
    the unset value for an absent variable and [false] for every other
    present value, the empty string included. For the two boolean settings
    the getter of a constructed store therefore returns [true] only for
    "Y", and [false] both for an absent variable (field unset, default) and
    for a present value other than "Y" (field [false]). *)
Theorem boolean_loader_three_way (env : Env) (envPrefix key : jsstring) :
  (env !! (envPrefix ++ key) = Some (js "Y") ->
   loadEnvBool env envPrefix key = Normal (Some true)) /\
  (env !! (envPrefix ++ key) = None ->
   loadEnvBool env envPrefix key = Normal None) /\
  (forall v, env !! (envPrefix ++ key) = Some v -> v <> js "Y" ->
   loadEnvBool env envPrefix key = Normal (Some false)) /\
  (env !! (envPrefix ++ key) = Some [] ->
   loadEnvBool env envPrefix key = Normal (Some false)) /\
  exists c, DpsConfig_new env envPrefix = Normal c /\
    forall s, setting_type s = TBoolean ->
      (getter s c = VBoolean true <->
       env !! (envPrefix ++ env_name s) = Some (js "Y")) /\
      (env !! (envPrefix ++ env_name s) = None ->
       stored s c = VUndefined /\ getter s c = VBoolean false) /\
      (forall v, env !! (envPrefix ++ env_name s) = Some v -> v <> js "Y" ->
       stored s c = VBoolean false /\ getter s c = VBoolean false).
Proof.
  assert (Hload : forall k,
    (env !! (envPrefix ++ k) = Some (js "Y") ->
     loadEnvBool env envPrefix k = Normal (Some true)) /\
    (env !! (envPrefix ++ k) = None ->
     loadEnvBool env envPrefix k = Normal None) /\
    (forall v, env !! (envPrefix ++ k) = Some v -> v <> js "Y" ->
     loadEnvBool env envPrefix k = Normal (Some false))).
  { intros k. rewrite loadEnvBool_normal. repeat split.
    - intros ->. reflexivity.
    - intros ->. reflexivity.
    - intros v -> Hv. rewrite bool_decide_eq_false_2 by assumption. reflexivity. }
  destruct (Hload key) as (HY & Habsent & Hother).
  repeat split; try assumption.
  - intros H. apply (Hother [] H). discriminate.
  - destruct (DpsConfig_new_normal env envPrefix) as (c & Hnew & Hfields).
    exists c. split; [exact Hnew|].
    intros s Hs. specialize (Hfields s). rewrite load_boolean in Hfields by exact Hs.
    destruct (Hload (env_name s)) as (HY' & Habsent' & Hother').
    destruct (env !! (envPrefix ++ env_name s)) as [v|] eqn:Hraw.
    + destruct (decide (v = js "Y")) as [->|Hne].
      * rewrite HY' in Hfields by reflexivity. apply Normal_inj in Hfields.
        assert (Hg : getter s c = VBoolean true)
          by (apply getter_set; [symmetry; exact Hfields | discriminate]).
        repeat split; try congruence.
      * rewrite (Hother' v) in Hfields by (reflexivity || assumption).
        apply Normal_inj in Hfields.
        assert (Hg : getter s c = VBoolean false)
          by (apply getter_set; [symmetry; exact Hfields | discriminate]).
        repeat split; try congruence.
        intros. symmetry. exact Hfields.
    + rewrite Habsent' in Hfields by reflexivity. apply Normal_inj in Hfields.
      assert (Hg : getter s c = VBoolean false).
      { rewrite getter_unset by (symmetry; exact Hfields).
        destruct s; try discriminate Hs; reflexivity. }
      repeat split; try congruence.
      symmetry; exact Hfields.
Qed.

(** ** Defaults *)

(** Instantiate a statement about every setting at each of the fifteen. *)
Ltac at_every_setting H :=
  pose proof (H Domain); pose proof (H ApiPath); pose proof (H DevelopmentMode);
  pose proof (H AuthApiSubdomain); pose proof (H AuthApiPort);
  pose proof (H AuthApiProtocol); pose proof (H AuthApiInsecureCookie);
  pose proof (H AuthApiSqliteMainFilePath); pose proof (H AuthApiSqliteMainPoolSize);
  pose proof (H AuthApiSqliteCollectionFilePath);
  pose proof (H AuthApiSqliteCollectionPoolSize);
  pose proof (H AuthApiSqliteSessionFilePath);
  pose proof (H AuthApiSqliteSessionPoolSize);
  pose proof (H AuthApiSessionSecret); pose proof (H AuthApiSessionTtlSeconds).

(** An absent variable leaves the field of its setting unset. *)
Lemma load_absent (env : Env) (p : jsstring) (s : Setting) :
  env !! (p ++ env_name s) = None -> load env p s = Normal VUndefined.
Proof.
  intros H. unfold load.
  destruct (setting_type s); run_loaders; rewrite H; reflexivity.
Qed.

(** C4. A store constructed while none of the variables is set returns the
    tabulated default from each of the thirteen getters that have one, and
    the absent value for the port and the session secret. *)
Theorem defaults_when_unset (env : Env) (envPrefix : jsstring) :
  (forall s, env !! (envPrefix ++ env_name s) = None) ->
  exists c, DpsConfig_new env envPrefix = Normal c /\
    getDomain c = js "dps.localhost" /\
    getApiPath c = js "api" /\
    getDevelopmentMode c = false /\
    getAuthApiSubdomain c = js "auth" /\
    getAuthApiProtocol c = js "https" /\
    getAuthApiInsecureCookie c = false /\
    getAuthApiSqliteMainFilePath c = js "data/main-development.db" /\
    getAuthApiSqliteCollectionFilePath c = js "data/collection-development.db" /\
    getAuthApiSqliteSessionFilePath c = js "data/session-development.db" /\
    getAuthApiSqliteMainPoolSize c = Number_of_Z 1 /\
    getAuthApiSqliteCollectionPoolSize c = Number_of_Z 1 /\
    getAuthApiSqliteSessionPoolSize c = Number_of_Z 1 /\
    getAuthApiSessionTtlSeconds c = Number_of_Z 1209600 /\
    getAuthApiPort c = None /\
    getAuthApiSessionSecret c = None /\
    getAuthApiSessionSecretBytes c = None.
Proof.
  intros Hunset.
  destruct (DpsConfig_new_normal env envPrefix) as (c & Hnew & Hfields).
  exists c. split; [exact Hnew|].
  assert (Hst : forall s, stored s c = VUndefined).
  { intros s. specialize (Hfields s). rewrite load_absent in Hfields by apply Hunset.
    symmetry. apply Normal_inj. exact Hfields. }
  clear Hnew Hfields. destruct c. at_every_setting Hst. clear Hst.
  cbn [stored domain apiPath developmentMode authApiSubdomain authApiPort
       authApiProtocol authApiInsecureCookie authApiSqliteMainFilePath
       authApiSqliteMainPoolSize authApiSqliteCollectionFilePath
       authApiSqliteCollectionPoolSize authApiSqliteSessionFilePath
       authApiSqliteSessionPoolSize authApiSessionSecret
       authApiSessionTtlSeconds] in *.
  repeat match goal with
         | H : of_string ?x = VUndefined |- _ => destruct x; [discriminate H|clear H]
         | H : of_number ?x = VUndefined |- _ => destruct x; [discriminate H|clear H]
         | H : of_boolean ?x = VUndefined |- _ => destruct x; [discriminate H|clear H]
         end.
  repeat split.
Qed.

(** ** Setters *)

(** C7. A setter called with a value of the type of its setting stores that
    value whatever the field held before; the getter of the setting then
    returns exactly that value, and the getter of every other setting
    returns what it returned before the call. *)
Theorem setter_overwrites_and_frames (c : DpsConfig) (s : Setting) (v : JsValue) :
  has_type v (setting_type s) = true ->
  exists c', setter s v c = Some c' /\
    stored s c' = v /\
    getter s c' = v /\
    forall s', s' <> s -> getter s' c' = getter s' c.
Proof.
  intros Hty.
  destruct s, v; try discriminate Hty;
    (eexists; split; [reflexivity|]; split; [reflexivity|]; split; [reflexivity|];
     intros [] Hne; try congruence; reflexivity).
Qed.

(** C9. The setter of a string setting with a default stores the empty
    string as it is: the getter then returns the empty string, not the
    default. An empty value of the variable at construction instead leaves
    the field unset, and the getter returns the default. *)
Theorem setter_keeps_empty_string (c : DpsConfig) (s : Setting) :
  setting_type s = TString -> default_value s <> None ->
  (exists c', setter s (VString []) c = Some c' /\
     stored s c' = VString [] /\
     getter s c' = VString [] /\
     default_value s <> Some (getter s c')) /\
  (forall env envPrefix, env !! (envPrefix ++ env_name s) = Some [] ->
     exists c0, DpsConfig_new env envPrefix = Normal c0 /\
       stored s c0 = VUndefined /\
       default_value s = Some (getter s c0)).
Proof.
  intros Hty Hdef. split.
  - destruct s; try discriminate Hty; try (exfalso; apply Hdef; reflexivity);
      (eexists; repeat split; discriminate).
  - intros env p Hraw.
    destruct (DpsConfig_new_normal env p) as (c0 & Hnew & Hfields).
    exists c0. split; [exact Hnew|].
    specialize (Hfields s). rewrite load_string in Hfields by exact Hty.
    rewrite loadEnvString_normal, Hraw in Hfields. apply Normal_inj in Hfields.
    split; [symmetry; exact Hfields|].
    rewrite getter_unset by (symmetry; exact Hfields).
    destruct (default_value s); [reflexivity|congruence].
Qed.

(** C10, as amended. The setters of the five numeric settings accept
    [undefined]; the getter then returns the default again (1 for the pool
    sizes, 1209600 for the session lifetime) or the absent value for the
    port. The boolean setters and the setters of the seven string settings
    that have a default accept only values of their type. The setter of the
    session secret, a string setting without default, accepts [undefined]
    as well, and its getter then returns the absent value. *)
Theorem numeric_setters_revert_to_default (c : DpsConfig) :
  (forall s, setting_type s = TNumber ->
     exists c', setter s VUndefined c = Some c' /\
       stored s c' = VUndefined /\
       getter s c' = default VUndefined (default_value s)) /\
  getAuthApiSqliteMainPoolSize (setAuthApiSqliteMainPoolSize None c) = Number_of_Z 1 /\
  getAuthApiSqliteCollectionPoolSize (setAuthApiSqliteCollectionPoolSize None c)
    = Number_of_Z 1 /\
  getAuthApiSqliteSessionPoolSize (setAuthApiSqliteSessionPoolSize None c)
    = Number_of_Z 1 /\
  getAuthApiSessionTtlSeconds (setAuthApiSessionTtlSeconds None c)
    = Number_of_Z 1209600 /\
  getAuthApiPort (setAuthApiPort None c) = None /\
  (forall s v, setting_type s <> TNumber -> default_value s <> None ->
     is_Some (setter s v c) -> has_type v (setting_type s) = true) /\
  getAuthApiSessionSecret (setAuthApiSessionSecret None c) = None /\
  setter AuthApiSessionSecret VUndefined c = Some (setAuthApiSessionSecret None c).
Proof.
  repeat split.
  - intros s Hs. destruct s; try discriminate Hs; eexists; repeat split.
  - intros s v Hs Hdef [c' Hc'].
    destruct s; cbn in Hs, Hdef; try congruence;
      destruct v; try discriminate Hc'; reflexivity.
Qed.

(** C10, as stated, fails: the setter of the session secret is a string
    setter and accepts [undefined], which is not a string. *)
Lemma string_setter_accepting_undefined :
  setting_type AuthApiSessionSecret = TString /\
  is_Some (setter AuthApiSessionSecret VUndefined blank) /\
  has_type VUndefined (setting_type AuthApiSessionSecret) = false.
Proof. repeat split. eexists. reflexivity. Qed.

(** ** Rounding to binary64 never gives NaN *)

Section Rounding.

Lemma shr_1_nonneg (mrs : shr_record) : 0 <= shr_m mrs -> 0 <= shr_m (shr_1 mrs).
Proof.
  destruct mrs as [m r s]. cbn [shr_m].
  destruct m as [|[q|q|]|q]; cbn; lia.
Qed.

Lemma iter_pos_shr_1_nonneg (n : positive) :
  forall mrs, 0 <= shr_m mrs -> 0 <= shr_m (SpecFloat.iter_pos shr_1 n mrs).
Proof.
  induction n as [n IH|n IH|]; intros mrs H; cbn [SpecFloat.iter_pos].
  - apply IH, IH, shr_1_nonneg, H.
  - apply IH, IH, H.
  - apply shr_1_nonneg, H.
Qed.

Lemma shr_fexp_nonneg (m e : Z) (l : location) :
  0 <= m -> 0 <= shr_m (fst (shr_fexp prec emax m e l)).
Proof.
  intros H. unfold shr_fexp, shr.
  assert (H0 : 0 <= shr_m (shr_record_of_loc m l))
    by (destruct l as [|[]]; exact H).
  destruct (fexp prec emax (Zdigits2 m + e) - e); cbn [fst]; try exact H0.
  apply iter_pos_shr_1_nonneg, H0.
Qed.

Lemma round_nearest_even_nonneg (m : Z) (l : location) :
  0 <= m -> 0 <= round_nearest_even m l.
Proof.
  intros H. destruct l as [|[]]; cbn [round_nearest_even]; try exact H; try lia.
  destruct (Z.even m); lia.
Qed.

Lemma binary_round_aux_not_nan (sx : bool) (mx ex : Z) (lx : location) :
  0 <= mx -> isNaN (binary_round_aux prec emax sx mx ex lx) = false.
Proof.
  intros H. unfold binary_round_aux.
  pose proof (shr_fexp_nonneg mx ex lx H) as H1.
  destruct (shr_fexp prec emax mx ex lx) as [mrs' e']. cbn [fst] in H1.
  pose proof (shr_fexp_nonneg _ e' loc_Exact
                (round_nearest_even_nonneg _ (loc_of_shr_record mrs') H1)) as H2.
  destruct (shr_fexp prec emax _ e' loc_Exact) as [mrs'' e'']. cbn [fst] in H2.
  destruct (shr_m mrs'') as [|q|q]; [reflexivity| |lia].
  destruct (e'' <=? emax - prec); reflexivity.
Qed.

Lemma Number_of_Z_not_nan (z : Z) : isNaN (Number_of_Z z) = false.
Proof.
  unfold Number_of_Z, binary_normalize, binary_round.
  destruct z as [|q|q]; [reflexivity| |];
    destruct (shl_align _ _ _) as [mz ez]; apply binary_round_aux_not_nan; lia.
Qed.

Lemma signed_number_not_nan (negative : bool) (z : Z) :
  isNaN (signed_number negative z) = false.
Proof.
  unfold signed_number. destruct (z =? 0); [reflexivity|apply Number_of_Z_not_nan].
Qed.

End Rounding.

(** ** parseInt on integer strings *)

Section ParseInt.

Lemma digit_value_digit (d : Z) : 0 <= d <= 9 -> digit_value (0x30 + d) = Some d.
Proof.
  intros H. unfold digit_value.
  destruct (Z.leb_spec 0x30 (0x30 + d)); [|lia].
  destruct (Z.leb_spec (0x30 + d) 0x39); [|lia].
  cbn [andb]. f_equal. lia.
Qed.

Lemma is_radix_digit_digit (d : Z) : 0 <= d <= 9 -> is_radix_digit 10 (0x30 + d) = true.
Proof.
  intros H. unfold is_radix_digit. rewrite digit_value_digit by exact H.
  apply Z.ltb_lt. lia.
Qed.

Lemma is_white_space_digit (d : Z) : 0 <= d <= 9 -> is_white_space (0x30 + d) = false.
Proof.
  intros H. unfold is_white_space.
  repeat match goal with
         | |- context [?a =? ?b] =>
             destruct (Z.eqb_spec a b); [lia|]
         | |- context [?a <=? ?b] =>
             destruct (Z.leb_spec a b); [try lia|try lia]
         end; reflexivity.
Qed.

(** A decimal numeral starts with a digit. *)
Lemma decimal_numeral_head (ds : jsstring) (z : Z) :
  decimal_numeral ds z -> exists d rest, ds = (0x30 + d) :: rest /\ 0 <= d <= 9.
Proof.
  induction 1 as [d Hd|ds z d _ (d0 & rest & -> & Hd0) Hd].
  - exists d, []. auto.
  - exists d0, (rest ++ [0x30 + d]). auto.
Qed.

Lemma decimal_numeral_nonneg (ds : jsstring) (z : Z) : decimal_numeral ds z -> 0 <= z.
Proof. induction 1; lia. Qed.

Lemma digit_prefix_app_digit (ds : jsstring) (d : Z) :
  digit_prefix 10 ds = ds -> 0 <= d <= 9 ->
  digit_prefix 10 (ds ++ [0x30 + d]) = ds ++ [0x30 + d].
Proof.
  intros Hds Hd. induction ds as [|u ds IH]; cbn [digit_prefix app].
  - rewrite is_radix_digit_digit by exact Hd. reflexivity.
  - cbn [digit_prefix] in Hds. destruct (is_radix_digit 10 u); [|discriminate Hds].
    f_equal. apply IH. congruence.
Qed.

(** Every code unit of a decimal numeral is a digit, and the digits write [z]. *)
Lemma decimal_numeral_parse (ds : jsstring) (z : Z) :
  decimal_numeral ds z -> digit_prefix 10 ds = ds /\ digits_value 10 ds = z.
Proof.
  induction 1 as [d Hd|ds z d _ [IHp IHv] Hd].
  - cbn [digit_prefix]. rewrite is_radix_digit_digit by exact Hd.
    unfold digits_value. cbn [fold_left]. rewrite digit_value_digit by exact Hd.
    split; [reflexivity|lia].
  - split; [apply digit_prefix_app_digit; assumption|].
    unfold digits_value in *. rewrite fold_left_app, IHv. cbn [fold_left].
    rewrite digit_value_digit by exact Hd. lia.
Qed.

(** parseInt on the digits alone, no sign in front. *)
Lemma parseInt_digits (ds : jsstring) (z : Z) (negative : bool) :
  decimal_numeral ds z ->
  match digit_prefix 10 ds with
  | [] => NaN
  | ds' =>
      if digits_value 10 ds' =? 0 then S754_zero negative
      else Number_of_Z (if negative then - digits_value 10 ds' else digits_value 10 ds')
  end = signed_number negative z.
Proof.
  intros H. destruct (decimal_numeral_parse ds z H) as [Hp Hv]. rewrite Hp.
  destruct (decimal_numeral_head ds z H) as (d & rest & Hds & _).
  destruct ds as [|u r]; [discriminate Hds|].
  cbv beta iota zeta. rewrite Hv. reflexivity.
Qed.

Lemma parseInt_integer_string (v : jsstring) (negative : bool) (z : Z) :
  integer_string v negative z -> parseInt v 10 = signed_number negative z.
Proof.
  intros [ds z' H|ds z' H|ds z' H]; unfold parseInt.
  - destruct (decimal_numeral_head ds z' H) as (d & rest & Hds & Hd).
    assert (Htrim : trim_start ds = ds).
    { rewrite Hds. cbn [trim_start]. rewrite is_white_space_digit by exact Hd.
      reflexivity. }
    rewrite Htrim.
    assert (Hsign : strip_sign ds = ds /\
                    match ds with u :: _ => u =? 0x2D | [] => false end = false).
    { rewrite Hds. unfold strip_sign.
      destruct (Z.eqb_spec (0x30 + d) 0x2B); [lia|].
      destruct (Z.eqb_spec (0x30 + d) 0x2D); [lia|]. auto. }
    destruct Hsign as [-> ->]. cbn [Z.eqb Z.leb orb andb Z.compare Pos.compare
      Pos.compare_cont]. apply parseInt_digits, H.
  - cbn [trim_start is_white_space strip_sign]. cbn -[digit_prefix digits_value Number_of_Z].
    apply parseInt_digits, H.
  - cbn [trim_start is_white_space strip_sign]. cbn -[digit_prefix digits_value Number_of_Z].
    apply parseInt_digits, H.
Qed.

End ParseInt.

(** ** The integer loader *)

(** What the field and the getter of a numeric setting hold once the
    loader has returned [r]. *)
Lemma number_setting_loaded (env : Env) (p : jsstring) (s : Setting) (c : DpsConfig)
    (r : option number) :
  setting_type s = TNumber ->
  load env p s = Normal (stored s c) ->
  loadEnvNumber env p (env_name s) = Normal r ->
  stored s c = of_number r /\
  getter s c = match r with
               | Some n => VNumber n
               | None => default VUndefined (default_value s)
               end.
Proof.
  intros Hty Hload Hr. rewrite load_number, Hr in Hload by exact Hty.
  apply Normal_inj in Hload. split; [symmetry; exact Hload|].
  rewrite getter_stored, <- Hload. destruct r; reflexivity.
Qed.

Lemma loadEnvNumber_parsed (env : Env) (p key v : jsstring) (n : number) :
  env !! (p ++ key) = Some v -> v <> [] -> parseInt v 10 = n -> isNaN n = false ->
  loadEnvNumber env p key = Normal (Some n).
Proof.
  intros Hraw Hv Hn Hnan. rewrite loadEnvNumber_normal, Hraw.
  destruct v as [|u rest]; [congruence|]. rewrite Hn, Hnan. reflexivity.
Qed.

Lemma loadEnvNumber_malformed (env : Env) (p key v : jsstring) :
  env !! (p ++ key) = Some v -> isNaN (parseInt v 10) = true ->
  loadEnvNumber env p key = Normal None.
Proof.
  intros Hraw Hnan. rewrite loadEnvNumber_normal, Hraw.
  destruct v as [|u rest]; [reflexivity|]. rewrite Hnan. reflexivity.
Qed.

Lemma integer_string_nonempty (v : jsstring) (negative : bool) (z : Z) :
  integer_string v negative z -> v <> [].
Proof.
  intros [ds z' H|ds z' H|ds z' H]; try discriminate.
  destruct (decimal_numeral_head ds z' H) as (d & rest & -> & _). discriminate.
Qed.

(** C2. For each of the five numeric settings the integer loader yields the
    unset value when the variable is absent or empty, the Number of the
    parsed base-10 integer when the value is an integer string ("8" gives
    8), and the unset value when parsing fails ("not-a-number"); on the
    unset value the getter returns the default, or the absent value for the
    port. The constructor returns a store in every case. *)
Theorem integer_loader_unset_or_parsed (env : Env) (envPrefix : jsstring) (s : Setting) :
  setting_type s = TNumber ->
  exists c, DpsConfig_new env envPrefix = Normal c /\
    (env !! (envPrefix ++ env_name s) = None \/
     env !! (envPrefix ++ env_name s) = Some [] ->
     loadEnvNumber env envPrefix (env_name s) = Normal None /\
     stored s c = VUndefined /\
     getter s c = default VUndefined (default_value s)) /\
    (forall v negative z,
       env !! (envPrefix ++ env_name s) = Some v -> integer_string v negative z ->
       loadEnvNumber env envPrefix (env_name s)
         = Normal (Some (signed_number negative z)) /\
       getter s c = VNumber (signed_number negative z)) /\
    (env !! (envPrefix ++ env_name s) = Some (js "8") ->
     getter s c = VNumber (Number_of_Z 8)) /\
    (forall v, env !! (envPrefix ++ env_name s) = Some v ->
       isNaN (parseInt v 10) = true ->
       loadEnvNumber env envPrefix (env_name s) = Normal None /\
       stored s c = VUndefined /\
       getter s c = default VUndefined (default_value s)) /\
    (env !! (envPrefix ++ env_name s) = Some (js "not-a-number") ->
     getter s c = default VUndefined (default_value s)).
Proof.
  intros Hty.
  destruct (DpsConfig_new_normal env envPrefix) as (c & Hnew & Hfields).
  exists c. split; [exact Hnew|].
  pose proof (number_setting_loaded env envPrefix s c) as Hloaded.
  specialize (Hfields s).
  assert (Hint : forall v negative z,
    env !! (envPrefix ++ env_name s) = Some v -> integer_string v negative z ->
    loadEnvNumber env envPrefix (env_name s)
      = Normal (Some (signed_number negative z)) /\
    getter s c = VNumber (signed_number negative z)).
  { intros v negative z Hraw Hv.
    assert (Hr : loadEnvNumber env envPrefix (env_name s)
                 = Normal (Some (signed_number negative z))).
    { apply (loadEnvNumber_parsed env envPrefix (env_name s) v); auto.
      - eapply integer_string_nonempty, Hv.
      - apply parseInt_integer_string, Hv.
      - apply signed_number_not_nan. }
    split; [exact Hr|]. apply (Hloaded _ Hty Hfields Hr). }
  assert (Hbad : forall v, env !! (envPrefix ++ env_name s) = Some v ->
    isNaN (parseInt v 10) = true ->
    loadEnvNumber env envPrefix (env_name s) = Normal None /\
    stored s c = VUndefined /\
    getter s c = default VUndefined (default_value s)).
  { intros v Hraw Hnan.
    pose proof (loadEnvNumber_malformed env envPrefix (env_name s) v Hraw Hnan) as Hr.
    split; [exact Hr|]. apply (Hloaded _ Hty Hfields Hr). }
  split; [|split; [exact Hint|split; [|split; [exact Hbad|]]]].
  - intros Hraw.
    assert (Hr : loadEnvNumber env envPrefix (env_name s) = Normal None)
      by (rewrite loadEnvNumber_normal; destruct Hraw as [-> | ->]; reflexivity).
    split; [exact Hr|]. apply (Hloaded _ Hty Hfields Hr).
  - intros Hraw.
    apply (Hint (js "8") false 8 Hraw).
    apply integer_plain, (numeral_digit 8). lia.
  - intros Hraw. apply (Hbad (js "not-a-number") Hraw). reflexivity.
Qed.

(** ** An empty variable and an absent variable *)

(** The fifteen variable names are pairwise distinct. *)
Lemma env_name_inj (s s' : Setting) : env_name s = env_name s' -> s = s'.
Proof.
  destruct s, s'; intros H; try reflexivity; vm_compute in H; discriminate H.
Qed.

Lemma prefixed_name_inj (p : jsstring) (s s' : Setting) :
  p ++ env_name s = p ++ env_name s' -> s = s'.
Proof. intros H. apply env_name_inj. exact (app_inv_head p _ _ H). Qed.

(** A loader call depends on the environment through one lookup only. *)
Lemma load_lookup (env env' : Env) (p : jsstring) (s : Setting) :
  env !! (p ++ env_name s) = env' !! (p ++ env_name s) ->
  load env p s = load env' p s.
Proof.
  intros H. unfold load. destruct (setting_type s); run_loaders; rewrite H; reflexivity.
Qed.

(** With the empty string as value the loader of a setting returns the
    unset value, except for a boolean setting, where it returns [false]. *)
Lemma load_empty (env : Env) (p : jsstring) (s : Setting) :
  env !! (p ++ env_name s) = Some [] ->
  load env p s = Normal (match setting_type s with
                         | TBoolean => VBoolean false
                         | _ => VUndefined
                         end).
Proof.
  intros H. unfold load. destruct (setting_type s); run_loaders; rewrite H; reflexivity.
Qed.

(** The two computed getters are functions of what the getters return. *)
Lemma observe_getters (c1 c2 : DpsConfig) :
  (forall s, getter s c1 = getter s c2) -> observe c1 = observe c2.
Proof.
  intros H. unfold observe. f_equal; [f_equal|].
  - apply map_ext. intros s. apply H.
  - unfold getAuthApiUrl.
    pose proof (H AuthApiProtocol) as Hprotocol. pose proof (H AuthApiSubdomain) as Hsub.
    pose proof (H Domain) as Hdomain. pose proof (H ApiPath) as Hpath.
    pose proof (H AuthApiPort) as Hport. cbn [getter] in *.
    assert (getAuthApiPort c1 = getAuthApiPort c2) as ->
      by (destruct (getAuthApiPort c1), (getAuthApiPort c2); cbn in Hport; congruence).
    congruence.
  - pose proof (H AuthApiSessionSecret) as Hsecret. cbn [getter] in Hsecret.
    unfold getAuthApiSessionSecretBytes, getAuthApiSessionSecret in *.
    destruct (authApiSessionSecret c1), (authApiSessionSecret c2);
      cbn in Hsecret; try discriminate Hsecret; [injection Hsecret as ->|];
      reflexivity.
Qed.

(** C3. For each of the fifteen variables and every prefix: the store
    constructed with the variable set to the empty string and the store
    constructed with the variable absent return the same result from every
    getter and from both computed getters. *)
Theorem empty_value_reads_as_absent (env : Env) (envPrefix : jsstring) (s : Setting) :
  exists c1 c2,
    DpsConfig_new (<[envPrefix ++ env_name s := []]> env) envPrefix = Normal c1 /\
    DpsConfig_new (delete (envPrefix ++ env_name s) env) envPrefix = Normal c2 /\
    (forall s', getter s' c1 = getter s' c2) /\
    observe c1 = observe c2.
Proof.
  destruct (DpsConfig_new_normal (<[envPrefix ++ env_name s := []]> env) envPrefix)
    as (c1 & Hnew1 & Hfields1).
  destruct (DpsConfig_new_normal (delete (envPrefix ++ env_name s) env) envPrefix)
    as (c2 & Hnew2 & Hfields2).
  exists c1, c2. split; [exact Hnew1|]. split; [exact Hnew2|].
  assert (Hget : forall s', getter s' c1 = getter s' c2).
  { intros s'. specialize (Hfields1 s'). specialize (Hfields2 s').
    destruct (decide (s' = s)) as [->|Hne].
    - rewrite load_empty in Hfields1 by apply lookup_insert_eq.
      rewrite load_absent in Hfields2 by apply lookup_delete_eq.
      apply Normal_inj in Hfields1, Hfields2.
      rewrite !getter_stored, <- Hfields1, <- Hfields2.
      destruct s; reflexivity.
    - assert (Hkey : envPrefix ++ env_name s <> envPrefix ++ env_name s')
        by (intros Heq; apply Hne; symmetry; exact (prefixed_name_inj _ _ _ Heq)).
      rewrite (load_lookup _ env) in Hfields1 by (apply lookup_insert_ne, Hkey).
      rewrite (load_lookup _ env) in Hfields2 by (apply lookup_delete_ne, Hkey).
      rewrite Hfields1 in Hfields2. apply Normal_inj in Hfields2.
      rewrite !getter_stored, Hfields2. reflexivity. }
  split; [exact Hget|]. apply observe_getters, Hget.
Qed.

(** ** The composed URL *)

(** C5. The composed URL is protocol, "://", subdomain, ".", domain, the
    port segment, "/" and the API path, each read through its getter. The
    port segment is empty when the port is absent, a zero or NaN (the
    falsy Numbers) and is ":" followed by the port as a string otherwise.
    The defaults give "https://auth.dps.localhost/api"; port 3000 with
    protocol "http" gives "http://auth.dps.localhost:3000/api". *)
Theorem auth_url_composition (c : DpsConfig) :
  (exists segment,
     getAuthApiUrl c =
       getAuthApiProtocol c ++ js "://" ++ getAuthApiSubdomain c ++ js "." ++
       getDomain c ++ segment ++ js "/" ++ getApiPath c /\
     (getAuthApiPort c = None -> segment = []) /\
     (forall sign, getAuthApiPort c = Some (S754_zero sign) -> segment = []) /\
     (getAuthApiPort c = Some NaN -> segment = []) /\
     (forall n, getAuthApiPort c = Some n ->
        (forall sign, n <> S754_zero sign) -> n <> NaN ->
        segment = js ":" ++ Number_toString n)) /\
  getAuthApiUrl blank = js "https://auth.dps.localhost/api" /\
  getAuthApiUrl (setAuthApiPort (Some (Number_of_Z 3000))
                   (setAuthApiProtocol (js "http") blank))
    = js "http://auth.dps.localhost:3000/api".
Proof.
  split; [|split; vm_compute; reflexivity].
  exists (if ToBoolean_number (getAuthApiPort c)
          then js ":" ++ ToString_number (getAuthApiPort c) else js "").
  split; [reflexivity|].
  repeat split.
  - intros ->. reflexivity.
  - intros sign ->. reflexivity.
  - intros ->. reflexivity.
  - intros n -> Hzero Hnan. destruct n; try reflexivity.
    + exfalso. eapply Hzero. reflexivity.
    + exfalso. apply Hnan. reflexivity.
Qed.

(** ** UTF-8: decoding what the encoder produced *)

Section Bits.

(** The masks and shifts of the encoder and the decoder, as arithmetic. *)
Lemma land_mask (a n : Z) : 0 <= n -> Z.land a (2 ^ n - 1) = a mod 2 ^ n.
Proof.
  intros Hn. rewrite <- Z.land_ones by exact Hn. f_equal.
  rewrite Z.ones_equiv. lia.
Qed.

Lemma lor_disjoint (a b n : Z) :
  0 <= n -> 0 <= b < 2 ^ n -> Z.lor (a * 2 ^ n) b = a * 2 ^ n + b.
Proof.
  intros Hn Hb.
  assert (Hand : Z.land (a * 2 ^ n) b = 0).
  { apply Z.bits_inj'. intros i Hi. rewrite Z.land_spec, Z.bits_0.
    destruct (Z.lt_ge_cases i n) as [Hlt|Hge].
    - rewrite Z.mul_pow2_bits_low by exact Hlt. reflexivity.
    - rewrite <- (Z.mod_small b (2 ^ n)) by exact Hb.
      rewrite Z.mod_pow2_bits_high by lia. apply andb_false_r. }
  rewrite <- Z.lxor_lor by exact Hand. symmetry. apply Z.add_nocarry_lxor, Hand.
Qed.

Lemma continuation_byte_eq (cp k : Z) :
  0 <= k ->
  Z.lor 0x80 (Z.land (Z.shiftr cp k) 0x3F) = 0x80 + (cp / 2 ^ k) mod 64.
Proof.
  intros Hk. rewrite Z.shiftr_div_pow2 by exact Hk.
  change 0x3F with (2 ^ 6 - 1). rewrite land_mask by lia.
  change 0x80 with (2 * 2 ^ 6). apply lor_disjoint; [lia|].
  apply Z.mod_pos_bound. lia.
Qed.

Lemma accumulate_eq (acc byte : Z) :
  Z.lor (Z.shiftl acc 6) (Z.land byte 0x3F) = acc * 64 + byte mod 64.
Proof.
  rewrite Z.shiftl_mul_pow2 by lia.
  change 0x3F with (2 ^ 6 - 1). rewrite land_mask by lia.
  apply lor_disjoint; [lia|]. apply Z.mod_pos_bound. lia.
Qed.

Lemma lead_mask_2 (byte : Z) : Z.land byte 0x1F = byte mod 32.
Proof. change 0x1F with (2 ^ 5 - 1). apply land_mask. lia. Qed.

Lemma lead_mask_3 (byte : Z) : Z.land byte 0xF = byte mod 16.
Proof. change 0xF with (2 ^ 4 - 1). apply land_mask. lia. Qed.

Lemma lead_mask_4 (byte : Z) : Z.land byte 0x7 = byte mod 8.
Proof. change 0x7 with (2 ^ 3 - 1). apply land_mask. lia. Qed.

End Bits.

Section Utf8.

(** Decide every comparison of the goal, keeping the branches [lia] cannot refute. *)
Ltac decide_comparisons :=
  repeat match goal with
         | |- context [?a <=? ?b] => destruct (Z.leb_spec a b); try lia
         | |- context [?a =? ?b] => destruct (Z.eqb_spec a b); try lia
         end.

(** The bytes of a code point, with the shifts and masks as divisions. *)
Lemma utf8_encode_code_point_eq (cp : Z) :
  utf8_encode_code_point cp =
  if cp <=? 0x7F then [cp]
  else if cp <=? 0x7FF then [cp / 64 + 0xC0; 0x80 + cp mod 64]
  else if cp <=? 0xFFFF then
    [cp / 4096 + 0xE0; 0x80 + (cp / 64) mod 64; 0x80 + cp mod 64]
  else
    [cp / 262144 + 0xF0; 0x80 + (cp / 4096) mod 64; 0x80 + (cp / 64) mod 64;
     0x80 + cp mod 64].
Proof.
  unfold utf8_encode_code_point.
  destruct (cp <=? 0x7F); [reflexivity|].
  destruct (cp <=? 0x7FF); [|destruct (cp <=? 0xFFFF)];
    cbn [continuation_bytes];
    rewrite ?continuation_byte_eq, ?Z.shiftr_div_pow2 by lia;
    cbn [Z.of_nat Pos.of_succ_nat Pos.succ Z.mul Pos.mul Pos.add];
    change (2 ^ 18) with 262144; change (2 ^ 12) with 4096;
    change (2 ^ 6) with 64; change (2 ^ 0) with 1;
    rewrite ?Z.div_1_r; reflexivity.
Qed.

Lemma handle_init (byte : Z) : handle decoder_init byte = handle_lead byte.
Proof. reflexivity. Qed.

Lemma handle_lead_ascii (byte : Z) :
  0 <= byte <= 0x7F -> handle_lead byte = (decoder_init, [byte]).
Proof. intros H. unfold handle_lead. decide_comparisons. reflexivity. Qed.

Lemma handle_lead_two (byte : Z) :
  0xC2 <= byte <= 0xDF ->
  handle_lead byte =
  ({| code_point := byte mod 32; bytes_seen := 0; bytes_needed := 1;
      lower_boundary := 0x80; upper_boundary := 0xBF |}, []).
Proof.
  intros H. unfold handle_lead. rewrite lead_mask_2.
  decide_comparisons. reflexivity.
Qed.

Lemma handle_lead_three (byte : Z) :
  0xE0 <= byte <= 0xEF ->
  handle_lead byte =
  ({| code_point := byte mod 16; bytes_seen := 0; bytes_needed := 2;
      lower_boundary := if byte =? 0xE0 then 0xA0 else 0x80;
      upper_boundary := if byte =? 0xED then 0x9F else 0xBF |}, []).
Proof.
  intros H. unfold handle_lead. rewrite lead_mask_3.
  destruct (Z.leb_spec 0 byte); [|lia]. destruct (Z.leb_spec byte 0x7F); [lia|].
  destruct (Z.leb_spec 0xC2 byte); [|lia]. destruct (Z.leb_spec byte 0xDF); [lia|].
  destruct (Z.leb_spec 0xE0 byte); [|lia]. destruct (Z.leb_spec byte 0xEF); [|lia].
  reflexivity.
Qed.

Lemma handle_lead_four (byte : Z) :
  0xF0 <= byte <= 0xF4 ->
  handle_lead byte =
  ({| code_point := byte mod 8; bytes_seen := 0; bytes_needed := 3;
      lower_boundary := if byte =? 0xF0 then 0x90 else 0x80;
      upper_boundary := if byte =? 0xF4 then 0x8F else 0xBF |}, []).
Proof.
  intros H. unfold handle_lead. rewrite lead_mask_4.
  destruct (Z.leb_spec 0 byte); [|lia]. destruct (Z.leb_spec byte 0x7F); [lia|].
  destruct (Z.leb_spec 0xC2 byte); [|lia]. destruct (Z.leb_spec byte 0xDF); [lia|].
  destruct (Z.leb_spec 0xE0 byte); [|lia]. destruct (Z.leb_spec byte 0xEF); [lia|].
  destruct (Z.leb_spec 0xF0 byte); [|lia]. destruct (Z.leb_spec byte 0xF4); [|lia].
  reflexivity.
Qed.

(** A byte within the boundaries is accumulated into the pending code point. *)
Lemma handle_continuation (d : utf8_decoder) (byte : Z) :
  bytes_needed d <> 0 ->
  lower_boundary d <= byte <= upper_boundary d ->
  handle d byte =
  if bytes_seen d + 1 =? bytes_needed d
  then (decoder_init, [code_point d * 64 + byte mod 64])
  else ({| code_point := code_point d * 64 + byte mod 64;
           bytes_seen := bytes_seen d + 1; bytes_needed := bytes_needed d;
           lower_boundary := 0x80; upper_boundary := 0xBF |}, []).
Proof.
  intros Hneeded Hrange. unfold handle. rewrite accumulate_eq.
  destruct (Z.eqb_spec (bytes_needed d) 0); [contradiction|].
  destruct (Z.leb_spec (lower_boundary d) byte); [|lia].
  destruct (Z.leb_spec byte (upper_boundary d)); [|lia].
  reflexivity.
Qed.

(** Linear arithmetic with divisions by constants. *)
Ltac div_lia := Z.div_mod_to_equations; lia.

(** One more byte of a pending sequence. *)
Ltac continuation_step :=
  cbn [app utf8_decode_from];
  rewrite handle_continuation
    by (cbn [bytes_needed lower_boundary upper_boundary]; decide_comparisons; div_lia);
  cbn [bytes_seen bytes_needed code_point];
  match goal with
  | |- context [?a =? ?b] =>
      let v := eval vm_compute in (a =? b) in change (a =? b) with v
  end;
  cbv beta iota zeta;
  repeat match goal with
         | |- context [?a + 1] =>
             let v := eval vm_compute in (a + 1) in change (a + 1) with v
         end.

(** The decoder, started in its initial state on the bytes of a scalar
    value, emits that scalar value and is back in its initial state. *)
Lemma decode_encoded_code_point (cp : Z) (rest : list Z) :
  scalar_value cp ->
  utf8_decode_from decoder_init (utf8_encode_code_point cp ++ rest) =
  cp :: utf8_decode_from decoder_init rest.
Proof.
  intros Hcp. unfold scalar_value in Hcp. rewrite utf8_encode_code_point_eq.
  destruct (Z.leb_spec cp 0x7F) as [H1|H1];
    [|destruct (Z.leb_spec cp 0x7FF) as [H2|H2];
      [|destruct (Z.leb_spec cp 0xFFFF) as [H3|H3]]];
    cbn [app utf8_decode_from]; rewrite handle_init.
  - rewrite handle_lead_ascii by lia. reflexivity.
  - rewrite handle_lead_two by div_lia.
    continuation_step. cbn [app]. f_equal. div_lia.
  - rewrite handle_lead_three by div_lia.
    continuation_step. continuation_step. cbn [app]. f_equal. div_lia.
  - rewrite handle_lead_four by div_lia.
    continuation_step. continuation_step. continuation_step. cbn [app]. f_equal. div_lia.
Qed.

End Utf8.

Section RoundTrip.

Lemma decode_encoded_scalars (cps : list Z) :
  Forall scalar_value cps ->
  utf8_decode_from decoder_init (flat_map utf8_encode_code_point cps) = cps.
Proof.
  induction 1 as [|cp cps Hcp _ IH]; [reflexivity|].
  cbn [flat_map]. rewrite decode_encoded_code_point by exact Hcp.
  f_equal. exact IH.
Qed.

(** Induction on a list with the hypothesis for the tail and for its tail. *)
Lemma list_ind_tail (P : list Z -> Prop) :
  P [] -> (forall u s, P s -> P (tail s) -> P (u :: s)) -> forall s, P s.
Proof.
  intros Hnil Hcons s.
  assert (H : P s /\ P (tail s)); [|exact (proj1 H)].
  induction s as [|u s [IH1 IH2]]; [split; exact Hnil|].
  split; [apply Hcons; assumption|exact IH1].
Qed.

Lemma surrogate_ranges (u : Z) :
  (is_high_surrogate u = true <-> 0xD800 <= u <= 0xDBFF) /\
  (is_low_surrogate u = true <-> 0xDC00 <= u <= 0xDFFF).
Proof.
  unfold is_high_surrogate, is_low_surrogate.
  rewrite !andb_true_iff, !Z.leb_le. tauto.
Qed.

Lemma surrogate_pair_scalar (h l : Z) :
  0xD800 <= h <= 0xDBFF -> 0xDC00 <= l <= 0xDFFF ->
  0xFFFF < surrogate_pair h l <= 0x10FFFF /\
  utf16_encode_code_point (surrogate_pair h l) = [h; l].
Proof.
  intros Hh Hl. unfold surrogate_pair, utf16_encode_code_point.
  split; [lia|].
  destruct (Z.leb_spec ((h - 0xD800) * 0x400 + (l - 0xDC00) + 0x10000) 0xFFFF); [lia|].
  f_equal; [|f_equal]; Z.div_mod_to_equations; lia.
Qed.

(** On a well-formed string the conversion to scalar values replaces
    nothing, and encoding the scalar values in UTF-16 gives the string back. *)
Lemma to_scalar_values_well_formed (s : jsstring) :
  well_formed s = true ->
  Forall scalar_value (to_scalar_values s) /\
  flat_map utf16_encode_code_point (to_scalar_values s) = s.
Proof.
  induction s as [|u s IH IHtail] using list_ind_tail; [split; [constructor|reflexivity]|].
  cbn [well_formed to_scalar_values]. intros Hwf.
  destruct (surrogate_ranges u) as [Hhigh Hlow].
  destruct (is_high_surrogate u) eqn:Hu.
  - destruct s as [|l rest]; [discriminate Hwf|].
    apply andb_true_iff in Hwf. destruct Hwf as [Hl Hrest]. rewrite Hl.
    cbn [tail] in IHtail. destruct (IHtail Hrest) as [Hscalars Hback].
    destruct (surrogate_pair_scalar u l) as [Hrange Hpair];
      [apply Hhigh; reflexivity|apply (surrogate_ranges l), Hl|].
    split.
    + constructor; [right; lia|exact Hscalars].
    + cbn [flat_map]. rewrite Hpair, Hback. reflexivity.
  - apply andb_true_iff in Hwf. destruct Hwf as [Hwf Hrest].
    apply andb_true_iff in Hwf. destruct Hwf as [Hwf Hnotlow].
    apply andb_true_iff in Hwf. destruct Hwf as [H0 H1].
    apply Z.leb_le in H0, H1. apply negb_true_iff in Hnotlow. rewrite Hnotlow.
    destruct (IH Hrest) as [Hscalars Hback].
    assert (Hscalar : scalar_value u).
    { unfold scalar_value.
      destruct (Z.lt_ge_cases u 0xD800); [left; lia|right].
      destruct (Z.le_gt_cases u 0xDBFF).
      - assert (false = true) by (apply Hhigh; lia). discriminate.
      - destruct (Z.le_gt_cases u 0xDFFF); [|lia].
        assert (is_low_surrogate u = true) by (apply Hlow; lia). congruence. }
    split; [constructor; assumption|].
    cbn [flat_map]. rewrite Hback. unfold utf16_encode_code_point.
    destruct (Z.leb_spec u 0xFFFF); [reflexivity|lia].
Qed.

(** Decoding the bytes of a well-formed string gives its scalar values. *)
Lemma decode_encode_well_formed (s : jsstring) :
  well_formed s = true ->
  utf8_decode_from decoder_init (utf8_encode s) = to_scalar_values s.
Proof.
  intros Hwf. apply decode_encoded_scalars, to_scalar_values_well_formed, Hwf.
Qed.

Lemma utf8_decode_encode (s : jsstring) :
  well_formed s = true -> utf8_decode (utf8_encode s) = s.
Proof.
  intros Hwf. unfold utf8_decode. rewrite decode_encode_well_formed by exact Hwf.
  apply to_scalar_values_well_formed, Hwf.
Qed.

(** The first scalar value of a well-formed string is U+FEFF only when
    its first code unit is. *)
Lemma first_scalar_value (s : jsstring) (cp : Z) (cps : list Z) :
  well_formed s = true -> to_scalar_values s = cp :: cps -> cp = 0xFEFF ->
  exists rest, s = 0xFEFF :: rest.
Proof.
  intros Hwf Hs Hcp. destruct s as [|u s]; [discriminate Hs|].
  cbn [well_formed to_scalar_values] in Hwf, Hs.
  destruct (surrogate_ranges u) as [Hhigh _].
  destruct (is_high_surrogate u) eqn:Hu.
  - destruct s as [|l rest]; [discriminate Hwf|].
    apply andb_true_iff in Hwf. destruct Hwf as [Hl _]. rewrite Hl in Hs.
    destruct (surrogate_pair_scalar u l) as [Hrange _];
      [apply Hhigh; reflexivity|apply (surrogate_ranges l), Hl|].
    injection Hs as Hpair _. lia.
  - destruct (is_low_surrogate u).
    + injection Hs as <- _. discriminate Hcp.
    + injection Hs as -> _. exists s. congruence.
Qed.

Lemma TextDecoder_decode_encode (s : jsstring) :
  well_formed s = true -> (forall rest, s <> 0xFEFF :: rest) ->
  TextDecoder_decode (utf8_encode s) = s.
Proof.
  intros Hwf Hbom. unfold TextDecoder_decode.
  rewrite decode_encode_well_formed by exact Hwf.
  destruct (to_scalar_values_well_formed s Hwf) as [_ Hback].
  destruct (to_scalar_values s) as [|cp cps] eqn:Hs; [exact Hback|].
  destruct (Z.eqb_spec cp 0xFEFF) as [Hcp|_]; [|exact Hback].
  destruct (first_scalar_value s cp cps Hwf Hs Hcp) as [rest ->].
  exfalso. exact (Hbom rest eq_refl).
Qed.

End RoundTrip.

(** ** The session secret as bytes *)

(** C6, as amended. When the stored secret is a well-formed UTF-16 string
    (no surrogate outside a pair), the computed bytes are its UTF-8
    encoding and UTF-8 decoding gives back exactly the stored string; the
    default [TextDecoder], which drops a leading U+FEFF, does so when the
    string does not start with U+FEFF. The bytes depend on the secret
    alone. "my-secret-key" comes back as "my-secret-key". When the secret
    is absent the result is the absent value. *)
Theorem secret_bytes_round_trip (c : DpsConfig) :
  (forall s, getAuthApiSessionSecret c = Some s -> well_formed s = true ->
     getAuthApiSessionSecretBytes c = Some (utf8_encode s) /\
     utf8_decode (utf8_encode s) = s /\
     ((forall rest, s <> 0xFEFF :: rest) ->
      TextDecoder_decode (utf8_encode s) = s)) /\
  (forall c', getAuthApiSessionSecret c' = getAuthApiSessionSecret c ->
     getAuthApiSessionSecretBytes c' = getAuthApiSessionSecretBytes c) /\
  (getAuthApiSessionSecret c = None -> getAuthApiSessionSecretBytes c = None) /\
  TextDecoder_decode <$>
    getAuthApiSessionSecretBytes (setAuthApiSessionSecret (Some (js "my-secret-key")) c)
    = Some (js "my-secret-key").
Proof.
  unfold getAuthApiSessionSecretBytes, getAuthApiSessionSecret.
  split; [|split; [|split]].
  - intros s Hs Hwf. rewrite Hs. split; [reflexivity|].
    split; [apply utf8_decode_encode, Hwf|].
    intros Hbom. apply TextDecoder_decode_encode; assumption.
  - intros c' ->. reflexivity.
  - intros ->. reflexivity.
  - reflexivity.
Qed.

(** C6, as stated, fails on a secret with a lone surrogate: the encoder
    replaces it by U+FFFD, so the bytes are those of another string and no
    decoder gives the stored string back. *)
Lemma lone_surrogate_secret_is_lost :
  getAuthApiSessionSecret (setAuthApiSessionSecret (Some [0xD800]) blank)
    = Some [0xD800] /\
  getAuthApiSessionSecretBytes (setAuthApiSessionSecret (Some [0xD800]) blank)
    = Some [0xEF; 0xBF; 0xBD] /\
  getAuthApiSessionSecretBytes (setAuthApiSessionSecret (Some [0xFFFD]) blank)
    = Some [0xEF; 0xBF; 0xBD] /\
  TextDecoder_decode [0xEF; 0xBF; 0xBD] = [0xFFFD] /\
  utf8_decode [0xEF; 0xBF; 0xBD] = [0xFFFD] /\
  TextDecoder_decode [0xEF; 0xBF; 0xBD] <> [0xD800].
Proof. repeat split. discriminate. Qed.

(** ** The theorems at concrete inputs *)

(** The constructor returns [blank] when no variable of the prefix is set. *)
Lemma DpsConfig_new_blank (env : Env) (envPrefix : jsstring) :
  (forall s, env !! (envPrefix ++ env_name s) = None) ->
  DpsConfig_new env envPrefix = Normal blank.
Proof.
  intros Hunset. at_every_setting Hunset. cbn [env_name] in *.
  unfold DpsConfig_new. run_loaders.
  repeat match goal with H : _ !! _ = None |- _ => rewrite H; clear H end.
  reflexivity.
Qed.

(** "Y" loads as [true], "N" as [false]. *)
Lemma boolean_loader_witness :
  loadEnvBool ({[js "DPS_DEVELOPMENT_MODE" := js "Y"]} : Env) []
    (js "DPS_DEVELOPMENT_MODE") = Normal (Some true) /\
  loadEnvBool ({[js "DPS_DEVELOPMENT_MODE" := js "N"]} : Env) []
    (js "DPS_DEVELOPMENT_MODE") = Normal (Some false).
Proof.
  split.
  - destruct (boolean_loader_three_way
                ({[js "DPS_DEVELOPMENT_MODE" := js "Y"]} : Env) []
                (js "DPS_DEVELOPMENT_MODE")) as (HY & _).
    apply HY. apply lookup_singleton_eq.
  - destruct (boolean_loader_three_way
                ({[js "DPS_DEVELOPMENT_MODE" := js "N"]} : Env) []
                (js "DPS_DEVELOPMENT_MODE")) as (_ & _ & Hother & _).
    apply (Hother (js "N")); [apply lookup_singleton_eq|discriminate].
Defined.

(** A pool size of "8" in the environment is read back as 8. *)
Lemma integer_loader_witness :
  setting_type AuthApiSqliteMainPoolSize = TNumber /\
  exists c,
    DpsConfig_new ({[js "DPS_AUTH_API_SQLITE_MAIN_POOL_SIZE" := js "8"]} : Env) []
      = Normal c /\
    getter AuthApiSqliteMainPoolSize c = VNumber (Number_of_Z 8).
Proof.
  split; [reflexivity|].
  destruct (integer_loader_unset_or_parsed
              ({[js "DPS_AUTH_API_SQLITE_MAIN_POOL_SIZE" := js "8"]} : Env) []
              AuthApiSqliteMainPoolSize eq_refl)
    as (c & Hnew & _ & _ & H8 & _).
  exists c. split; [exact Hnew|]. apply H8. apply lookup_singleton_eq.
Defined.

(** The empty environment sets none of the variables. *)
Lemma defaults_when_unset_witness :
  (forall s, (∅ : Env) !! ([] ++ env_name s) = None) /\
  exists c, DpsConfig_new (∅ : Env) [] = Normal c /\
    getDomain c = js "dps.localhost" /\
    getAuthApiSessionTtlSeconds c = Number_of_Z 1209600 /\
    getAuthApiPort c = None.
Proof.
  split; [intros s; apply lookup_empty|].
  destruct (defaults_when_unset (∅ : Env) [] (fun s => lookup_empty _))
    as (c & Hnew & Hdomain & Hrest).
  exists c. split; [exact Hnew|]. split; [exact Hdomain|].
  decompose [and] Hrest. split; assumption.
Defined.

(** The example of the README: domain "test.local", protocol "http", port 8080. *)
Lemma auth_url_witness :
  getAuthApiUrl (setAuthApiPort (Some (Number_of_Z 8080))
                   (setAuthApiProtocol (js "http") (setDomain (js "test.local") blank)))
    = js "http://auth.test.local:8080/api".
Proof.
  destruct (auth_url_composition
              (setAuthApiPort (Some (Number_of_Z 8080))
                 (setAuthApiProtocol (js "http") (setDomain (js "test.local") blank))))
    as ((segment & Hurl & _ & _ & _ & Hsegment) & _).
  rewrite Hurl, (Hsegment (Number_of_Z 8080) eq_refl).
  - vm_compute. reflexivity.
  - intros sign H. vm_compute in H. discriminate H.
  - intros H. vm_compute in H. discriminate H.
Defined.

(** A secret with a two-byte character and a surrogate pair. *)
Lemma secret_bytes_witness :
  well_formed [0xE9; 0xD83D; 0xDE00] = true /\
  getAuthApiSessionSecretBytes
    (setAuthApiSessionSecret (Some [0xE9; 0xD83D; 0xDE00]) blank)
    = Some [0xC3; 0xA9; 0xF0; 0x9F; 0x98; 0x80] /\
  TextDecoder_decode [0xC3; 0xA9; 0xF0; 0x9F; 0x98; 0x80] = [0xE9; 0xD83D; 0xDE00].
Proof.
  destruct (secret_bytes_round_trip
              (setAuthApiSessionSecret (Some [0xE9; 0xD83D; 0xDE00]) blank))
    as (Hround & _).
  destruct (Hround [0xE9; 0xD83D; 0xDE00] eq_refl eq_refl) as (Hbytes & _ & Hdecode).
  split; [reflexivity|]. split; [exact Hbytes|].
  apply Hdecode. intros rest H. discriminate H.
Defined.

(** Setting the domain changes the domain and leaves the API path alone. *)
Lemma setter_overwrites_witness :
  has_type (VString (js "example.com")) (setting_type Domain) = true /\
  exists c', setter Domain (VString (js "example.com")) blank = Some c' /\
    getDomain c' = js "example.com" /\
    getApiPath c' = js "api".
Proof.
  split; [reflexivity|].
  destruct (setter_overwrites_and_frames blank Domain (VString (js "example.com")) eq_refl)
    as (c' & Hset & _ & Hget & Hframe).
  exists c'. split; [exact Hset|].
  specialize (Hframe ApiPath). cbn [getter] in Hget, Hframe.
  split; [congruence|].
  assert (H : VString (getApiPath c') = VString (getApiPath blank))
    by (apply Hframe; discriminate).
  injection H as ->. reflexivity.
Defined.

(** The empty string set as domain is what the getter returns. *)
Lemma setter_keeps_empty_string_witness :
  setting_type Domain = TString /\ default_value Domain <> None /\
  exists c', setter Domain (VString []) blank = Some c' /\ getter Domain c' = VString [].
Proof.
  split; [reflexivity|]. split; [discriminate|].
  destruct (setter_keeps_empty_string blank Domain eq_refl)
    as ((c' & Hset & _ & Hget & _) & _); [discriminate|].
  exists c'. split; assumption.
Defined.

(** A session lifetime of 1800 set back to [undefined] reads as 1209600 again. *)
Lemma numeric_setters_witness :
  exists c',
    setter AuthApiSessionTtlSeconds VUndefined
      (setAuthApiSessionTtlSeconds (Some (Number_of_Z 1800)) blank) = Some c' /\
    getter AuthApiSessionTtlSeconds c' = VNumber (Number_of_Z 1209600).
Proof.
  destruct (numeric_setters_revert_to_default
              (setAuthApiSessionTtlSeconds (Some (Number_of_Z 1800)) blank))
    as (Hrevert & _).
  destruct (Hrevert AuthApiSessionTtlSeconds eq_refl) as (c' & Hset & _ & Hget).
  exists c'. split; [exact Hset|exact Hget].
Defined.

(** ** The test suite of the repository, evaluated on the embedding *)

Section Tests.

Example test_default_values :
  observe <$> DpsConfig_new_default ∅ =
  Normal ([VString (js "dps.localhost"); VString (js "api"); VBoolean false;
           VString (js "auth"); VUndefined; VString (js "https"); VBoolean false;
           VString (js "data/main-development.db"); VNumber (Number_of_Z 1);
           VString (js "data/collection-development.db"); VNumber (Number_of_Z 1);
           VString (js "data/session-development.db"); VNumber (Number_of_Z 1);
           VUndefined; VNumber (Number_of_Z 1209600)],
          js "https://auth.dps.localhost/api", None).
Proof. vm_compute. reflexivity. Qed.

Example test_setters :
  let config :=
    setAuthApiSessionSecret (Some (js "s3cr3t"))
      (setAuthApiPort (Some (Number_of_Z 3000))
         (setDevelopmentMode true (setApiPath (js "v1") (setDomain (js "example.com") blank)))) in
  getDomain config = js "example.com" /\ getApiPath config = js "v1" /\
  getDevelopmentMode config = true /\
  getAuthApiPort config = Some (Number_of_Z 3000) /\
  getAuthApiSessionSecret config = Some (js "s3cr3t").
Proof. repeat split. Qed.

Example test_insecure_cookie_from_env :
  getAuthApiInsecureCookie <$>
    DpsConfig_new_default {[js "DPS_AUTH_API_INSECURE_COOKIE" := js "Y"]} = Normal true.
Proof. vm_compute. reflexivity. Qed.

Example test_pool_sizes_from_env :
  let env : Env :=
    <[js "DPS_AUTH_API_SQLITE_MAIN_POOL_SIZE" := js "8"]>
      (<[js "DPS_AUTH_API_SQLITE_COLLECTION_POOL_SIZE" := js "4"]>
         {[js "DPS_AUTH_API_SQLITE_SESSION_POOL_SIZE" := js "2"]}) in
  (fun c => (getAuthApiSqliteMainPoolSize c, getAuthApiSqliteCollectionPoolSize c,
             getAuthApiSqliteSessionPoolSize c)) <$> DpsConfig_new_default env
  = Normal (Number_of_Z 8, Number_of_Z 4, Number_of_Z 2).
Proof. vm_compute. reflexivity. Qed.

Example test_session_ttl_from_env :
  Number_toString <$>
    (getAuthApiSessionTtlSeconds <$>
       DpsConfig_new_default {[js "DPS_AUTH_API_SESSION_TTL_SECONDS" := js "1800"]})
  = Normal (js "1800").
Proof. vm_compute. reflexivity. Qed.

Example test_env_prefix :
  let env : Env :=
    <[js "VITE_DPS_DOMAIN" := js "vite.local"]> {[js "DPS_DOMAIN" := js "standard.local"]} in
  getDomain <$> DpsConfig_new env (js "VITE_") = Normal (js "vite.local") /\
  getDomain <$> DpsConfig_new_default env = Normal (js "standard.local").
Proof. split; vm_compute; reflexivity. Qed.

(** parseInt reads a leading integer and ignores what follows it. *)
Example parseInt_examples :
  parseInt (js "  -12abc") 10 = Number_of_Z (-12) /\
  parseInt (js "0x1F") 10 = Number_of_Z 0 /\
  parseInt (js "1.5") 10 = Number_of_Z 1 /\
  parseInt (js "-0") 10 = S754_zero true /\
  parseInt (js "abc") 10 = NaN /\
  parseInt (js "9007199254740993") 10 = Number_of_Z 9007199254740992.
Proof. repeat split. Qed.

Example Number_toString_examples :
  Number_toString (Number_of_Z 3000) = js "3000" /\
  Number_toString (Number_of_Z (-42)) = js "-42" /\
  Number_toString (Number_of_Z (2 ^ 60)) = js "1152921504606847000" /\
  Number_toString (Number_of_Z (10 ^ 21)) = js "1e+21" /\
  Number_toString (SFdiv prec emax (Number_of_Z 1) (Number_of_Z 2)) = js "0.5" /\
  Number_toString (SFdiv prec emax (Number_of_Z 1) (Number_of_Z 10000000)) = js "1e-7" /\
  Number_toString (Number_of_Z (10 ^ 400)) = js "Infinity".
Proof. repeat split; vm_compute; reflexivity. Qed.

(** Two shortest decimals equally close to the Number: the even digit is printed. *)
Example Number_toString_tie :
  Number_toString (binary_normalize prec emax (2 ^ 51 + 3) (-2) false)
  = js "562949953421312.8".
Proof. vm_compute. reflexivity. Qed.

End Tests.

(** * Further properties of the class *)

(** ** What the constructor reads *)

Section ConstructorReads.

Lemma DpsConfig_new_agree (env env' : Env) (p p' : jsstring) :
  (forall s, env !! (p ++ env_name s) = env' !! (p' ++ env_name s)) ->
  DpsConfig_new env p = DpsConfig_new env' p'.
Proof.
  intros Hagree. at_every_setting Hagree. cbn [env_name] in *.
  unfold DpsConfig_new. run_loaders.
  repeat match goal with H : _ !! _ = _ !! _ |- _ => rewrite H; clear H end.
  reflexivity.
Qed.

(** X1. The constructor depends on the environment through fifteen lookups
    only: two environments (and prefixes) that agree on the value of every
    prefixed variable name give the same store. *)
Theorem constructor_reads_fifteen_names (env env' : Env) (p p' : jsstring) :
  (forall s, env !! (p ++ env_name s) = env' !! (p' ++ env_name s)) ->
  DpsConfig_new env p = DpsConfig_new env' p'.
Proof. apply DpsConfig_new_agree. Qed.

(** A variable renamed from "VITE_DPS_DOMAIN" to "DPS_DOMAIN" is read the
    same way by the store of the other prefix. *)
Lemma constructor_reads_fifteen_names_witness :
  DpsConfig_new ({[js "VITE_DPS_DOMAIN" := js "vite.local"]} : Env) (js "VITE_") =
  DpsConfig_new ({[js "DPS_DOMAIN" := js "vite.local"]} : Env) [].
Proof.
  apply constructor_reads_fifteen_names.
  intros s. destruct s; vm_compute; reflexivity.
Defined.

(** A name is the suffix of another name only when the two are the same. *)
Lemma env_name_not_proper_suffix (p : jsstring) (s s' : Setting) :
  env_name s' = p ++ env_name s -> p = [].
Proof.
  intros H.
  assert (Hdrop : drop (length (env_name s') - length (env_name s)) (env_name s')
                  = env_name s).
  { rewrite H at 2. rewrite H at 1. rewrite length_app.
    replace (length p + length (env_name s) - length (env_name s))%nat
      with (length p) by lia.
    apply drop_app_length. }
  destruct s, s';
    try (vm_compute in Hdrop; discriminate Hdrop);
    match goal with
    | H : ?n = p ++ ?n |- _ => apply (app_inv_tail n p []); symmetry; exact H
    end.
Qed.

(** X2. Prefix isolation. With a non-empty prefix, the store ignores every
    variable that carries an unprefixed name; the store of the empty
    prefix ignores every variable that carries a prefixed name. *)
Theorem prefix_isolation (env : Env) (p : jsstring) (s : Setting) (v : jsstring) :
  p <> [] ->
  DpsConfig_new (<[env_name s := v]> env) p = DpsConfig_new env p /\
  DpsConfig_new (<[p ++ env_name s := v]> env) [] = DpsConfig_new env [].
Proof.
  intros Hp. split; apply DpsConfig_new_agree; intros s'.
  - apply lookup_insert_ne. intros H. apply Hp.
    apply (env_name_not_proper_suffix p s' s). exact H.
  - apply lookup_insert_ne. intros H. apply Hp.
    apply (env_name_not_proper_suffix p s s'). symmetry. exact H.
Qed.

(** The test of the repository: "VITE_DPS_DOMAIN" does not reach the store
    of the empty prefix, "DPS_DOMAIN" does not reach the store of "VITE_". *)
Lemma prefix_isolation_witness :
  js "VITE_" <> [] /\
  DpsConfig_new (<[js "DPS_DOMAIN" := js "standard.local"]> (∅ : Env)) (js "VITE_")
    = Normal blank /\
  DpsConfig_new (<[js "VITE_DPS_DOMAIN" := js "vite.local"]> (∅ : Env)) []
    = Normal blank.
Proof.
  split; [discriminate|].
  destruct (prefix_isolation (∅ : Env) (js "VITE_") Domain (js "standard.local"))
    as [H1 _]; [discriminate|].
  destruct (prefix_isolation (∅ : Env) (js "VITE_") Domain (js "vite.local"))
    as [_ H2]; [discriminate|].
  split.
  - etransitivity; [exact H1|]. vm_compute. reflexivity.
  - etransitivity; [exact H2|]. vm_compute. reflexivity.
Defined.

End ConstructorReads.

(** ** What the constructor stores *)

Section ConstructorStores.

(** X3. A non-empty value of the variable of a string setting (the session
    secret included) is stored as it is, without trimming or validation,
    and the getter returns it. *)
Theorem string_setting_loaded_verbatim (env : Env) (p : jsstring) (s : Setting)
    (v : jsstring) :
  setting_type s = TString ->
  env !! (p ++ env_name s) = Some v -> v <> [] ->
  exists c, DpsConfig_new env p = Normal c /\
    stored s c = VString v /\ getter s c = VString v.
Proof.
  intros Hty Hraw Hv.
  destruct (DpsConfig_new_normal env p) as (c & Hnew & Hfields).
  exists c. split; [exact Hnew|].
  specialize (Hfields s). rewrite load_string in Hfields by exact Hty.
  rewrite loadEnvString_normal, Hraw in Hfields.
  destruct v as [|u rest]; [congruence|]. apply Normal_inj in Hfields.
  split; [symmetry; exact Hfields|].
  apply getter_set; [symmetry; exact Hfields|discriminate].
Qed.

(** A domain with spaces around it is kept with its spaces. *)
Lemma string_setting_loaded_verbatim_witness :
  setting_type Domain = TString /\
  exists c,
    DpsConfig_new ({[js "DPS_DOMAIN" := js " example.com "]} : Env) [] = Normal c /\
    getter Domain c = VString (js " example.com ").
Proof.
  split; [reflexivity|].
  destruct (string_setting_loaded_verbatim
              ({[js "DPS_DOMAIN" := js " example.com "]} : Env) [] Domain
              (js " example.com ") eq_refl)
    as (c & Hnew & _ & Hget); [apply lookup_singleton_eq|discriminate|].
  exists c. split; assumption.
Defined.

Lemma constructed_fields_valid (env : Env) (p : jsstring) :
  exists c, DpsConfig_new env p = Normal c /\
    forall s, stored s c <> VString [] /\ stored s c <> VNumber NaN.
Proof.
  destruct (DpsConfig_new_normal env p) as (c & Hnew & Hfields).
  exists c. split; [exact Hnew|]. intros s. specialize (Hfields s).
  unfold load in Hfields. destruct (setting_type s); revert Hfields; run_loaders;
    destruct (env !! (p ++ env_name s)) as [[|u rest]|];
    cbn [fmap completion_fmap of_string of_number of_boolean];
    intros Hfields; apply Normal_inj in Hfields; rewrite <- Hfields;
    try (split; discriminate).
  destruct (isNaN (parseInt (u :: rest) 10)) eqn:Hnan; cbn [of_number];
    [split; discriminate|].
  split; [discriminate|]. intros H. injection H as H. rewrite H in Hnan.
  discriminate Hnan.
Qed.

(** X4. The constructor never stores the empty string and never stores NaN:
    a field it leaves set holds a non-empty string, a boolean, or a Number
    other than NaN. Only a setter can store "" or NaN. *)
Theorem constructor_never_stores_empty_or_nan (env : Env) (p : jsstring) :
  exists c, DpsConfig_new env p = Normal c /\
    forall s, stored s c <> VString [] /\ stored s c <> VNumber NaN.
Proof. apply constructed_fields_valid. Qed.

End ConstructorStores.

(** ** What the integer loader accepts *)

Section LenientIntegers.

Lemma trim_start_white_space (ws rest : jsstring) :
  Forall (fun u => is_white_space u = true) ws ->
  trim_start (ws ++ rest) = trim_start rest.
Proof.
  induction 1 as [|u ws Hu _ IH]; [reflexivity|].
  cbn [app trim_start]. rewrite Hu. exact IH.
Qed.

Lemma digit_prefix_stops (ds t : jsstring) :
  digit_prefix 10 ds = ds -> stops_digits t -> digit_prefix 10 (ds ++ t) = ds.
Proof.
  intros Hds Ht. induction ds as [|u ds IH]; cbn [app].
  - destruct t as [|u t]; [reflexivity|]. cbn [digit_prefix]. cbn in Ht.
    rewrite Ht. reflexivity.
  - cbn [digit_prefix] in *. destruct (is_radix_digit 10 u); [|discriminate Hds].
    f_equal. apply IH. congruence.
Qed.

Lemma parseInt_digits_then (ds t : jsstring) (z : Z) (negative : bool) :
  decimal_numeral ds z -> stops_digits t ->
  match digit_prefix 10 (ds ++ t) with
  | [] => NaN
  | ds' =>
      if digits_value 10 ds' =? 0 then S754_zero negative
      else Number_of_Z (if negative then - digits_value 10 ds' else digits_value 10 ds')
  end = signed_number negative z.
Proof.
  intros H Ht. destruct (decimal_numeral_parse ds z H) as [Hp Hv].
  rewrite digit_prefix_stops by assumption.
  rewrite <- Hp. apply parseInt_digits, H.
Qed.

(** parseInt skips white space in front of an integer string and stops at
    the first code unit after it that is not a digit. *)
Lemma parseInt_lenient (ws v t : jsstring) (negative : bool) (z : Z) :
  Forall (fun u => is_white_space u = true) ws ->
  integer_string v negative z -> stops_digits t ->
  parseInt (ws ++ v ++ t) 10 = signed_number negative z.
Proof.
  intros Hws Hv Ht. unfold parseInt. rewrite trim_start_white_space by exact Hws.
  destruct Hv as [ds z' H|ds z' H|ds z' H].
  - destruct (decimal_numeral_head ds z' H) as (d & rest & Hds & Hd).
    assert (Htrim : trim_start (ds ++ t) = ds ++ t).
    { rewrite Hds. cbn [app trim_start]. rewrite is_white_space_digit by exact Hd.
      reflexivity. }
    rewrite Htrim.
    assert (Hsign : strip_sign (ds ++ t) = ds ++ t /\
                    match ds ++ t with u :: _ => u =? 0x2D | [] => false end = false).
    { rewrite Hds. cbn [app]. unfold strip_sign.
      destruct (Z.eqb_spec (0x30 + d) 0x2B); [lia|].
      destruct (Z.eqb_spec (0x30 + d) 0x2D); [lia|]. auto. }
    destruct Hsign as [-> ->].
    cbn [Z.eqb Z.leb orb andb Z.compare Pos.compare Pos.compare_cont].
    apply parseInt_digits_then; assumption.
  - cbn [app trim_start is_white_space strip_sign].
    cbn -[digit_prefix digits_value Number_of_Z app].
    apply parseInt_digits_then; assumption.
  - cbn [app trim_start is_white_space strip_sign].
    cbn -[digit_prefix digits_value Number_of_Z app].
    apply parseInt_digits_then; assumption.
Qed.

(** X5. The integer loader takes the integer at the front of the value: white
    space before it and any text after it that does not start with a digit
    ("8px", "1.5", "12abc") are dropped without an error, and the setting
    is set to that integer. *)
Theorem integer_loader_reads_leading_integer (env : Env) (p : jsstring) (s : Setting)
    (ws v t : jsstring) (negative : bool) (z : Z) :
  setting_type s = TNumber ->
  Forall (fun u => is_white_space u = true) ws ->
  integer_string v negative z -> stops_digits t ->
  env !! (p ++ env_name s) = Some (ws ++ v ++ t) ->
  exists c, DpsConfig_new env p = Normal c /\
    loadEnvNumber env p (env_name s) = Normal (Some (signed_number negative z)) /\
    getter s c = VNumber (signed_number negative z).
Proof.
  intros Hty Hws Hv Ht Hraw.
  destruct (DpsConfig_new_normal env p) as (c & Hnew & Hfields).
  exists c. split; [exact Hnew|].
  assert (Hr : loadEnvNumber env p (env_name s)
               = Normal (Some (signed_number negative z))).
  { apply (loadEnvNumber_parsed env p (env_name s) (ws ++ v ++ t)).
    - exact Hraw.
    - intros H. apply app_eq_nil in H. destruct H as [_ H].
      apply app_eq_nil in H. destruct H as [H _].
      exact (integer_string_nonempty v negative z Hv H).
    - apply parseInt_lenient; assumption.
    - apply signed_number_not_nan. }
  split; [exact Hr|].
  apply (number_setting_loaded env p s c _ Hty (Hfields s) Hr).
Qed.

(** " 8px" as pool size is read as 8. *)
Lemma integer_loader_reads_leading_integer_witness :
  exists c,
    DpsConfig_new ({[js "DPS_AUTH_API_SQLITE_MAIN_POOL_SIZE" := js " 8px"]} : Env) []
      = Normal c /\
    getter AuthApiSqliteMainPoolSize c = VNumber (Number_of_Z 8).
Proof.
  destruct (integer_loader_reads_leading_integer
              ({[js "DPS_AUTH_API_SQLITE_MAIN_POOL_SIZE" := js " 8px"]} : Env) []
              AuthApiSqliteMainPoolSize (js " ") (js "8") (js "px") false 8)
    as (c & Hnew & _ & Hget).
  - reflexivity.
  - repeat constructor.
  - apply integer_plain, (numeral_digit 8). lia.
  - reflexivity.
  - apply lookup_singleton_eq.
  - exists c. split; assumption.
Defined.

End LenientIntegers.

(** ** A port of zero *)

Section ZeroPort.

(** X6. A port variable that writes zero ("0", "00", "-0", "+0") is stored: the
    port getter returns a zero, not the absent value. The composed URL
    nevertheless has no port segment, as for an absent port. *)
Theorem zero_port_stored_but_not_in_url (env : Env) (p v : jsstring) (negative : bool) :
  integer_string v negative 0 ->
  env !! (p ++ env_name AuthApiPort) = Some v ->
  exists c, DpsConfig_new env p = Normal c /\
    getAuthApiPort c = Some (S754_zero negative) /\
    getAuthApiUrl c =
      getAuthApiProtocol c ++ js "://" ++ getAuthApiSubdomain c ++ js "." ++
      getDomain c ++ js "/" ++ getApiPath c.
Proof.
  intros Hv Hraw.
  destruct (DpsConfig_new_normal env p) as (c & Hnew & Hfields).
  exists c. split; [exact Hnew|].
  assert (Hr : loadEnvNumber env p (env_name AuthApiPort)
               = Normal (Some (signed_number negative 0))).
  { apply (loadEnvNumber_parsed env p (env_name AuthApiPort) v); auto.
    - eapply integer_string_nonempty, Hv.
    - apply parseInt_integer_string, Hv. }
  destruct (number_setting_loaded env p AuthApiPort c _ eq_refl (Hfields AuthApiPort) Hr)
    as [Hstored _].
  assert (Hport : getAuthApiPort c = Some (S754_zero negative)).
  { cbn [stored of_number] in Hstored. unfold getAuthApiPort.
    destruct (authApiPort c); [injection Hstored as ->; reflexivity|discriminate]. }
  split; [exact Hport|].
  unfold getAuthApiUrl. rewrite Hport. reflexivity.
Qed.

Lemma zero_port_stored_but_not_in_url_witness :
  exists c,
    DpsConfig_new ({[js "DPS_AUTH_API_PORT" := js "0"]} : Env) [] = Normal c /\
    getAuthApiPort c = Some (S754_zero false) /\
    getAuthApiUrl c = js "https://auth.dps.localhost/api".
Proof.
  destruct (zero_port_stored_but_not_in_url
              ({[js "DPS_AUTH_API_PORT" := js "0"]} : Env) [] (js "0") false)
    as (c & Hnew & Hport & Hurl).
  - apply integer_plain, (numeral_digit 0). lia.
  - apply lookup_singleton_eq.
  - exists c. split; [exact Hnew|]. split; [exact Hport|].
    rewrite Hurl.
    assert (Hc : Normal c = Normal (setAuthApiPort (Some (S754_zero false)) blank))
      by (rewrite <- Hnew; vm_compute; reflexivity).
    injection Hc as ->. reflexivity.
Defined.

End ZeroPort.

(** ** How setter calls compose *)

Section SetterComposition.

(** X7. Of two calls of the same setter the second one decides: the store is
    the one the second call alone would have given. *)
Theorem setter_last_write_wins (c c1 c2 : DpsConfig) (s : Setting) (v v' : JsValue) :
  setter s v c = Some c1 -> setter s v' c1 = Some c2 -> setter s v' c = Some c2.
Proof.
  intros H1 H2.
  destruct s, v; try discriminate H1; injection H1 as <-;
    destruct v'; try discriminate H2; injection H2 as <-; reflexivity.
Qed.

(** The domain set twice keeps the second value. *)
Lemma setter_last_write_wins_witness :
  setter Domain (VString (js "b.example")) blank
  = Some (setDomain (js "b.example") (setDomain (js "a.example") blank)).
Proof.
  apply (setter_last_write_wins blank (setDomain (js "a.example") blank) _ Domain
           (VString (js "a.example")) (VString (js "b.example")));
    reflexivity.
Defined.

(** X8. Calls of the setters of two different settings can be made in either
    order: both orders are accepted and give the same store. *)
Theorem setters_commute (c c1 c12 : DpsConfig) (s s' : Setting) (v v' : JsValue) :
  s <> s' ->
  setter s v c = Some c1 -> setter s' v' c1 = Some c12 ->
  exists c2, setter s' v' c = Some c2 /\ setter s v c2 = Some c12.
Proof.
  intros Hne H1 H2.
  destruct s, v; try discriminate H1; injection H1 as <-;
    destruct s'; try congruence;
    destruct v'; try discriminate H2; injection H2 as <-;
    (eexists; split; reflexivity).
Qed.

(** Port then protocol, protocol then port. *)
Lemma setters_commute_witness :
  AuthApiPort <> AuthApiProtocol /\
  exists c2,
    setter AuthApiProtocol (VString (js "http")) blank = Some c2 /\
    setter AuthApiPort (VNumber (Number_of_Z 3000)) c2
    = Some (setAuthApiProtocol (js "http") (setAuthApiPort (Some (Number_of_Z 3000)) blank)).
Proof.
  split; [discriminate|].
  apply (setters_commute blank (setAuthApiPort (Some (Number_of_Z 3000)) blank) _
           AuthApiPort AuthApiProtocol (VNumber (Number_of_Z 3000)) (VString (js "http")));
    [discriminate|reflexivity|reflexivity].
Defined.

End SetterComposition.

(** ** What the computed getters depend on *)

Section ComputedGetters.

(** X9. The composed URL is a function of five getters (protocol, subdomain,
    domain, port, API path), and the secret bytes of the secret alone: a
    setter call for any other setting leaves the computed value as it was. *)
Theorem computed_getters_frame (c c' : DpsConfig) (s : Setting) (v : JsValue) :
  setter s v c = Some c' ->
  (s <> AuthApiProtocol -> s <> AuthApiSubdomain -> s <> Domain ->
   s <> AuthApiPort -> s <> ApiPath ->
   getAuthApiUrl c' = getAuthApiUrl c) /\
  (s <> AuthApiSessionSecret ->
   getAuthApiSessionSecretBytes c' = getAuthApiSessionSecretBytes c).
Proof.
  intros Hset.
  destruct s, v; try discriminate Hset; injection Hset as <-;
    (split; [intros H1 H2 H3 H4 H5|intros H1]; try congruence; reflexivity).
Qed.

(** Setting the secret does not change the URL; setting the port does not
    change the secret bytes. *)
Lemma computed_getters_frame_witness :
  getAuthApiUrl (setAuthApiSessionSecret (Some (js "s3cr3t")) blank)
    = getAuthApiUrl blank /\
  getAuthApiSessionSecretBytes
    (setAuthApiPort (Some (Number_of_Z 3000))
       (setAuthApiSessionSecret (Some (js "s3cr3t")) blank))
    = getAuthApiSessionSecretBytes (setAuthApiSessionSecret (Some (js "s3cr3t")) blank).
Proof.
  split.
  - destruct (computed_getters_frame blank _ AuthApiSessionSecret
                (VString (js "s3cr3t")) eq_refl) as [Hurl _].
    apply Hurl; discriminate.
  - destruct (computed_getters_frame
                (setAuthApiSessionSecret (Some (js "s3cr3t")) blank) _ AuthApiPort
                (VNumber (Number_of_Z 3000)) eq_refl) as [_ Hbytes].
    apply Hbytes; discriminate.
Defined.

End ComputedGetters.

(** ** The bytes of the session secret *)

Section SecretBytes.

(** Linear arithmetic with divisions by constants. *)
Ltac div_lia := Z.div_mod_to_equations; lia.

(** Decide every comparison of the goal, keeping the branches [lia] cannot refute. *)
Ltac decide_comparisons :=
  repeat match goal with
         | |- context [?a <=? ?b] => destruct (Z.leb_spec a b); try lia
         | |- context [?a =? ?b] => destruct (Z.eqb_spec a b); try lia
         end.

(** The scalar values of a string of 16-bit code units are scalar values:
    whatever is not one has been replaced by U+FFFD. *)
Lemma to_scalar_values_scalar (s : jsstring) :
  Forall (fun u => 0 <= u <= 0xFFFF) s -> Forall scalar_value (to_scalar_values s).
Proof.
  induction s as [|u s IH IHtail] using list_ind_tail; [constructor|].
  intros Hs. inversion Hs as [|u' s' Hu Hrest]; subst.
  cbn [to_scalar_values].
  destruct (surrogate_ranges u) as [Hhigh Hlow].
  assert (Hreplaced : scalar_value 0xFFFD) by (right; lia).
  destruct (is_high_surrogate u) eqn:Hu1.
  - destruct s as [|l rest]; [constructor; [exact Hreplaced|constructor]|].
    destruct (is_low_surrogate l) eqn:Hl.
    + inversion Hrest; subst. constructor; [|apply IHtail; assumption].
      destruct (surrogate_pair_scalar u l) as [Hrange _];
        [apply Hhigh; reflexivity|apply (surrogate_ranges l), Hl|].
      right. lia.
    + constructor; [exact Hreplaced|apply IH, Hrest].
  - destruct (is_low_surrogate u) eqn:Hu2.
    + constructor; [exact Hreplaced|apply IH, Hrest].
    + constructor; [|apply IH, Hrest].
      unfold scalar_value.
      destruct (Z.lt_ge_cases u 0xD800); [left; lia|right].
      destruct (Z.le_gt_cases u 0xDBFF).
      * assert (false = true) by (apply Hhigh; lia). discriminate.
      * destruct (Z.le_gt_cases u 0xDFFF); [|lia].
        assert (false = true) by (apply Hlow; lia). discriminate.
Qed.

(** A scalar value is encoded in one to four bytes, each from 0 to 255. *)
Lemma utf8_encode_code_point_bytes (cp : Z) :
  scalar_value cp ->
  Forall (fun b => 0 <= b <= 255) (utf8_encode_code_point cp) /\
  (1 <= length (utf8_encode_code_point cp) <= 4)%nat /\
  (cp <= 0xFFFF -> (length (utf8_encode_code_point cp) <= 3)%nat) /\
  (0xFFFF < cp -> length (utf8_encode_code_point cp) = 4%nat).
Proof.
  intros Hcp. unfold scalar_value in Hcp. rewrite utf8_encode_code_point_eq.
  destruct (Z.leb_spec cp 0x7F); [|destruct (Z.leb_spec cp 0x7FF);
    [|destruct (Z.leb_spec cp 0xFFFF)]];
    (split; [repeat constructor; div_lia|
            cbn [length]; split; [lia|split; intros; lia]]).
Qed.

(** X10. The secret bytes are bytes, at least as many as the secret has code
    units and at most three times as many. *)
Theorem secret_bytes_length_and_range (c : DpsConfig) (s : jsstring) :
  getAuthApiSessionSecret c = Some s ->
  Forall (fun u => 0 <= u <= 0xFFFF) s ->
  exists bytes, getAuthApiSessionSecretBytes c = Some bytes /\
    Forall (fun b => 0 <= b <= 255) bytes /\
    (length s <= length bytes <= 3 * length s)%nat.
Proof.
  unfold getAuthApiSessionSecret, getAuthApiSessionSecretBytes. intros -> Hs.
  exists (utf8_encode s). split; [reflexivity|]. split.
  - unfold utf8_encode. apply Forall_flat_map.
    eapply Forall_impl; [apply to_scalar_values_scalar, Hs|].
    intros cp Hcp. apply utf8_encode_code_point_bytes, Hcp.
  - unfold utf8_encode. revert Hs.
    induction s as [|u s IH IHtail] using list_ind_tail; [cbn; lia|].
    intros Hs. inversion Hs as [|u' s' Hu Hrest]; subst.
    pose proof (to_scalar_values_scalar (u :: s) Hs) as Hscalars.
    cbn [to_scalar_values] in *.
    destruct (is_high_surrogate u) eqn:Hu1.
    + destruct s as [|l rest].
      * cbn. lia.
      * destruct (is_low_surrogate l) eqn:Hl.
        -- inversion Hrest; subst. inversion Hscalars as [|cp cps Hcp Hcps]; subst.
           destruct (utf8_encode_code_point_bytes _ Hcp) as (_ & _ & _ & Hfour).
           destruct (surrogate_pair_scalar u l) as [Hrange _];
             [apply (surrogate_ranges u), Hu1|apply (surrogate_ranges l), Hl|].
           cbn [flat_map tail length] in *. rewrite length_app, Hfour by lia.
           specialize (IHtail ltac:(assumption)). lia.
        -- specialize (IH Hrest). cbn [length] in IH. cbn [flat_map length].
           rewrite length_app.
           change (length (utf8_encode_code_point 65533)) with 3%nat. lia.
    + specialize (IH Hrest).
      destruct (is_low_surrogate u) eqn:Hu2;
        inversion Hscalars as [|cp cps Hcp Hcps]; subst;
        destruct (utf8_encode_code_point_bytes _ Hcp) as (_ & Hlen & Hbmp & _);
        specialize (Hbmp ltac:(lia));
        cbn [flat_map length]; rewrite length_app; lia.
Qed.

(** Scalar values written in UTF-16 form a well-formed string, and the
    string reads back as the same scalar values. *)
Lemma utf16_of_scalar_values (cps : list Z) :
  Forall scalar_value cps ->
  well_formed (flat_map utf16_encode_code_point cps) = true /\
  to_scalar_values (flat_map utf16_encode_code_point cps) = cps.
Proof.
  induction 1 as [|cp cps Hcp _ [IHwf IHback]]; [split; reflexivity|].
  cbn [flat_map]. unfold utf16_encode_code_point, scalar_value in *.
  destruct (Z.leb_spec cp 0xFFFF) as [Hbmp|Hastral]; cbn [app].
  - cbn [well_formed to_scalar_values].
    assert (Hhigh : is_high_surrogate cp = false)
      by (unfold is_high_surrogate; decide_comparisons; reflexivity).
    assert (Hlow : is_low_surrogate cp = false)
      by (unfold is_low_surrogate; decide_comparisons; reflexivity).
    rewrite Hhigh, Hlow, IHwf, IHback.
    split; [|reflexivity]. decide_comparisons; try reflexivity.
  - set (h := (cp - 0x10000) / 0x400 + 0xD800).
    set (l := (cp - 0x10000) mod 0x400 + 0xDC00).
    assert (Hh : 0xD800 <= h <= 0xDBFF) by (subst h; div_lia).
    assert (Hl : 0xDC00 <= l <= 0xDFFF) by (subst l; div_lia).
    assert (Hhigh : is_high_surrogate h = true) by (apply surrogate_ranges, Hh).
    assert (Hlow : is_low_surrogate l = true) by (apply surrogate_ranges, Hl).
    cbn [well_formed to_scalar_values]. rewrite Hhigh, Hlow, IHwf, IHback.
    split; [reflexivity|]. f_equal. unfold surrogate_pair. subst h l. div_lia.
Qed.

(** X11. The secret bytes are valid UTF-8 for every secret, ill-formed ones
    included: the decoder finds no error in them beyond the U+FFFD the
    encoder wrote for unpaired surrogates, the decoded string is
    well-formed, and encoding it again gives the same bytes. *)
Theorem secret_bytes_valid_utf8 (c : DpsConfig) (s : jsstring) :
  getAuthApiSessionSecret c = Some s ->
  Forall (fun u => 0 <= u <= 0xFFFF) s ->
  exists bytes, getAuthApiSessionSecretBytes c = Some bytes /\
    utf8_decode_from decoder_init bytes = to_scalar_values s /\
    well_formed (utf8_decode bytes) = true /\
    utf8_encode (utf8_decode bytes) = bytes.
Proof.
  unfold getAuthApiSessionSecret, getAuthApiSessionSecretBytes. intros -> Hs.
  exists (utf8_encode s). split; [reflexivity|].
  pose proof (to_scalar_values_scalar s Hs) as Hscalars.
  assert (Hdecode : utf8_decode_from decoder_init (utf8_encode s) = to_scalar_values s)
    by (apply decode_encoded_scalars, Hscalars).
  destruct (utf16_of_scalar_values _ Hscalars) as [Hwf Hback].
  split; [exact Hdecode|]. unfold utf8_decode. rewrite Hdecode.
  split; [exact Hwf|]. unfold utf8_encode at 1. rewrite Hback. reflexivity.
Qed.

(** A secret made of a lone low surrogate and a letter. *)
Lemma secret_bytes_valid_utf8_witness :
  Forall (fun u => 0 <= u <= 0xFFFF) [0xDC00; 0x41] /\
  utf8_decode [0xEF; 0xBF; 0xBD; 0x41] = [0xFFFD; 0x41] /\
  utf8_encode [0xFFFD; 0x41] = [0xEF; 0xBF; 0xBD; 0x41].
Proof.
  assert (Hunits : Forall (fun u => 0 <= u <= 0xFFFF) [0xDC00; 0x41])
    by (repeat constructor; lia).
  destruct (secret_bytes_valid_utf8
              (setAuthApiSessionSecret (Some [0xDC00; 0x41]) blank) [0xDC00; 0x41]
              eq_refl Hunits)
    as (bytes & Hbytes & _ & _ & Hagain).
  injection Hbytes as <-.
  split; [exact Hunits|]. split; [reflexivity|exact Hagain].
Defined.

(** The length and range of the bytes of a secret with a surrogate pair. *)
Lemma secret_bytes_length_and_range_witness :
  exists bytes,
    getAuthApiSessionSecretBytes
      (setAuthApiSessionSecret (Some [0xE9; 0xD83D; 0xDE00]) blank) = Some bytes /\
    (3 <= length bytes <= 9)%nat.
Proof.
  destruct (secret_bytes_length_and_range
              (setAuthApiSessionSecret (Some [0xE9; 0xD83D; 0xDE00]) blank)
              [0xE9; 0xD83D; 0xDE00] eq_refl)
    as (bytes & Hbytes & _ & Hlen); [repeat constructor; lia|].
  exists bytes. split; [exact Hbytes|exact Hlen].
Defined.

(** X12. A secret of ASCII characters has one byte per character, the byte
    being the character code. *)
Theorem ascii_secret_bytes (c : DpsConfig) (s : jsstring) :
  getAuthApiSessionSecret c = Some s ->
  Forall (fun u => 0 <= u <= 0x7F) s ->
  getAuthApiSessionSecretBytes c = Some s.
Proof.
  unfold getAuthApiSessionSecret, getAuthApiSessionSecretBytes. intros -> Hs.
  cbn [bool_decide decide_rel TextEncoder_encode]. f_equal.
  unfold utf8_encode. induction Hs as [|u s Hu _ IH]; [reflexivity|].
  cbn [to_scalar_values].
  assert (Hhigh : is_high_surrogate u = false)
    by (unfold is_high_surrogate; decide_comparisons; reflexivity).
  assert (Hlow : is_low_surrogate u = false)
    by (unfold is_low_surrogate; decide_comparisons; reflexivity).
  rewrite Hhigh, Hlow. cbn [flat_map]. rewrite IH.
  unfold utf8_encode_code_point. destruct (Z.leb_spec u 0x7F); [reflexivity|lia].
Qed.

Lemma ascii_secret_bytes_witness :
  Forall (fun u => 0 <= u <= 0x7F) (js "my-secret-key") /\
  getAuthApiSessionSecretBytes
    (setAuthApiSessionSecret (Some (js "my-secret-key")) blank)
  = Some (js "my-secret-key").
Proof.
  assert (H : Forall (fun u => 0 <= u <= 0x7F) (js "my-secret-key"))
    by (apply (bool_decide_unpack _); vm_compute; exact I).
  split; [exact H|].
  apply (ascii_secret_bytes (setAuthApiSessionSecret (Some (js "my-secret-key")) blank)
           (js "my-secret-key") eq_refl H).
Defined.

(** X13. Two well-formed secrets with the same bytes are the same secret. *)
Theorem distinct_secrets_distinct_bytes (c1 c2 : DpsConfig) (s1 s2 : jsstring) :
  getAuthApiSessionSecret c1 = Some s1 -> getAuthApiSessionSecret c2 = Some s2 ->
  well_formed s1 = true -> well_formed s2 = true ->
  getAuthApiSessionSecretBytes c1 = getAuthApiSessionSecretBytes c2 ->
  s1 = s2.
Proof.
  unfold getAuthApiSessionSecret, getAuthApiSessionSecretBytes.
  intros -> -> Hwf1 Hwf2 Hbytes.
  cbn [bool_decide decide_rel TextEncoder_encode] in Hbytes.
  injection Hbytes as Hbytes.
  rewrite <- (utf8_decode_encode s1 Hwf1), <- (utf8_decode_encode s2 Hwf2), Hbytes.
  reflexivity.
Qed.

(** Two stores that differ in the domain and have the same secret bytes. *)
Lemma distinct_secrets_distinct_bytes_witness :
  well_formed (js "a") = true /\
  getAuthApiSessionSecretBytes (setAuthApiSessionSecret (Some (js "a")) blank)
  = getAuthApiSessionSecretBytes
      (setDomain (js "example.com") (setAuthApiSessionSecret (Some (js "a")) blank)) /\
  js "a" = js "a".
Proof.
  split; [reflexivity|]. split; [reflexivity|].
  apply (distinct_secrets_distinct_bytes
           (setAuthApiSessionSecret (Some (js "a")) blank)
           (setDomain (js "example.com") (setAuthApiSessionSecret (Some (js "a")) blank))
           (js "a") (js "a")); reflexivity.
Defined.

Lemma utf8_encode_nil (s : jsstring) : utf8_encode s = [] -> s = [].
Proof.
  destruct s as [|u s]; [reflexivity|]. unfold utf8_encode. intros H.
  assert (Hcp : forall cp rest, flat_map utf8_encode_code_point (cp :: rest) <> []).
  { intros cp rest. cbn [flat_map]. unfold utf8_encode_code_point.
    destruct (cp <=? 0x7F); [discriminate|].
    destruct (cp <=? 0x7FF); [discriminate|].
    destruct (cp <=? 0xFFFF); discriminate. }
  exfalso. revert H. cbn [to_scalar_values].
  destruct (is_high_surrogate u).
  - destruct s as [|l rest]; [apply Hcp|]. destruct (is_low_surrogate l); apply Hcp.
  - destruct (is_low_surrogate u); apply Hcp.
Qed.

(** X14. The secret bytes are present exactly when the secret is, and are the
    empty byte sequence exactly when the secret is the empty string, which
    a setter can store and the constructor cannot. *)
Theorem secret_bytes_present_and_empty (c : DpsConfig) :
  (getAuthApiSessionSecretBytes c = None <-> getAuthApiSessionSecret c = None) /\
  (getAuthApiSessionSecretBytes c = Some [] <-> getAuthApiSessionSecret c = Some []) /\
  (forall env p, DpsConfig_new env p = Normal c ->
     getAuthApiSessionSecretBytes c <> Some []).
Proof.
  assert (Hempty : getAuthApiSessionSecretBytes c = Some [] <->
                   getAuthApiSessionSecret c = Some []).
  { unfold getAuthApiSessionSecret, getAuthApiSessionSecretBytes.
    destruct (authApiSessionSecret c) as [s|]; cbn [bool_decide decide_rel TextEncoder_encode].
    - split; intros H; injection H as H.
      + f_equal. apply utf8_encode_nil, H.
      + subst s. reflexivity.
    - split; discriminate. }
  split; [|split; [exact Hempty|]].
  - unfold getAuthApiSessionSecret, getAuthApiSessionSecretBytes.
    destruct (authApiSessionSecret c); split; (reflexivity || discriminate).
  - intros env p Hnew Hbytes. apply Hempty in Hbytes.
    destruct (constructed_fields_valid env p) as (c' & Hnew' & Hstored).
    rewrite Hnew in Hnew'. injection Hnew' as <-.
    destruct (Hstored AuthApiSessionSecret) as [Hne _]. apply Hne.
    cbn [stored]. unfold getAuthApiSessionSecret in Hbytes. rewrite Hbytes. reflexivity.
Qed.

(** The empty secret set by the setter gives zero bytes, not the absent value. *)
Lemma secret_bytes_present_and_empty_witness :
  getAuthApiSessionSecretBytes (setAuthApiSessionSecret (Some []) blank) = Some [].
Proof.
  destruct (secret_bytes_present_and_empty (setAuthApiSessionSecret (Some []) blank))
    as (_ & Hempty & _).
  apply Hempty. reflexivity.
Defined.

End SecretBytes.

(** ** Integers as Numbers and as text *)

Section IntegerNumbers.

Lemma digits2_pos_bounds (q : positive) :
  2 ^ (Zpos (digits2_pos q) - 1) <= Zpos q < 2 ^ Zpos (digits2_pos q).
Proof.
  induction q as [q IH|q IH|]; cbn [digits2_pos]; [| |cbn; lia];
    rewrite Pos2Z.inj_succ;
    replace (Z.succ (Zpos (digits2_pos q)) - 1) with (Z.succ (Zpos (digits2_pos q) - 1))
      by lia;
    rewrite !Z.pow_succ_r by lia; lia.
Qed.

Lemma iter_xO_spec (k q : positive) :
  Zpos (Pos.iter xO q k) = Zpos q * 2 ^ Zpos k /\
  digits2_pos (Pos.iter xO q k) = (digits2_pos q + k)%positive.
Proof.
  induction k as [|k IH] using Pos.peano_ind.
  - cbn [Pos.iter digits2_pos]. split; [lia|]. rewrite Pos.add_1_r. reflexivity.
  - rewrite Pos.iter_succ. cbn [digits2_pos]. destruct IH as [IHv IHd].
    rewrite Pos2Z.inj_xO, IHv, IHd, Pos2Z.inj_succ, Z.pow_succ_r by lia.
    split; [lia|]. rewrite Pos.add_succ_r. reflexivity.
Qed.

(** The Number of a positive integer below 2^53 is that integer exactly:
    a 53-bit mantissa [m] and an exponent [e <= 0] with [m * 2^e = z]. *)
Lemma Number_of_Z_exact (z : Z) :
  0 < z < 2 ^ 53 ->
  exists m e, Number_of_Z z = S754_finite false m e /\
    -52 <= e <= 0 /\ Zpos m = z * 2 ^ (- e) /\ 2 ^ 52 <= Zpos m < 2 ^ 53.
Proof.
  intros Hz. destruct z as [|q|q]; try lia.
  unfold Number_of_Z, binary_normalize, binary_round.
  pose proof (digits2_pos_bounds q) as Hd.
  set (d := Zpos (digits2_pos q)) in *.
  assert (Hd53 : 1 <= d <= 53).
  { split; [subst d; lia|].
    destruct (Z.le_gt_cases d 53) as [H|H]; [exact H|].
    assert (2 ^ 53 <= 2 ^ (d - 1)) by (apply Z.pow_le_mono_r; lia). lia. }
  assert (Hfexp : fexp prec emax (d + 0) = d - 53) by (unfold fexp, emin, prec, emax; lia).
  rewrite Hfexp.
  assert (Halign : exists mz,
    shl_align q 0 (d - 53) = (mz, d - 53) /\
    Zpos mz = Zpos q * 2 ^ (53 - d) /\ Zpos (digits2_pos mz) = 53).
  { unfold shl_align. destruct (d - 53 - 0) as [|k|k] eqn:Hk; try lia.
    - exists q. replace (d - 53) with 0 by lia. replace (53 - d) with 0 by lia.
      split; [reflexivity|]. split; [lia|]. fold d. lia.
    - destruct (iter_xO_spec k q) as [Hv Hdig].
      exists (Pos.iter xO q k). split; [reflexivity|].
      rewrite Hv, Hdig. replace (53 - d) with (Zpos k) by lia.
      split; [reflexivity|]. rewrite Pos2Z.inj_add. fold d. lia. }
  destruct Halign as (mz & -> & Hmz & Hdigits).
  exists mz, (d - 53).
  assert (Hshr : forall l, shr_fexp prec emax (Zpos mz) (d - 53) l
                           = (shr_record_of_loc (Zpos mz) l, d - 53)).
  { intros l. unfold shr_fexp, shr. cbn [Zdigits2]. rewrite Hdigits.
    replace (fexp prec emax (53 + (d - 53)) - (d - 53)) with 0
      by (unfold fexp, emin, prec, emax; lia).
    reflexivity. }
  unfold binary_round_aux. rewrite Hshr.
  cbn [shr_record_of_loc shr_m loc_of_shr_record round_nearest_even].
  rewrite Hshr. cbn [shr_record_of_loc shr_m].
  replace (d - 53 <=? emax - prec) with true
    by (symmetry; apply Z.leb_le; unfold emax, prec; lia).
  split; [reflexivity|]. split; [lia|].
  replace (- (d - 53)) with (53 - d) by lia. split; [exact Hmz|].
  pose proof (digits2_pos_bounds mz) as Hb. rewrite Hdigits in Hb.
  replace (53 - 1) with 52 in Hb by lia. exact Hb.
Qed.

End IntegerNumbers.

Section DecimalDigits.

Lemma decimal_digits_aux_acc (fuel : nat) :
  forall z acc, decimal_digits_aux fuel z acc = decimal_digits_aux fuel z [] ++ acc.
Proof.
  induction fuel as [|fuel IH]; intros z acc; cbn [decimal_digits_aux].
  - reflexivity.
  - destruct (z <? 10); [reflexivity|].
    rewrite IH, (IH _ [_]), <- app_assoc. reflexivity.
Qed.

(** With enough fuel the digits do not depend on the fuel. *)
Lemma decimal_digits_aux_fuel (fuel1 : nat) :
  forall fuel2 z acc,
    0 <= z < 10 ^ Z.of_nat (S fuel1) -> z < 10 ^ Z.of_nat (S fuel2) ->
    decimal_digits_aux (S fuel1) z acc = decimal_digits_aux (S fuel2) z acc.
Proof.
  induction fuel1 as [|fuel1 IH]; intros fuel2 z acc H1 H2;
    cbn [decimal_digits_aux]; destruct (Z.ltb_spec z 10); try reflexivity.
  - cbn in H1. lia.
  - destruct fuel2 as [|fuel2]; [cbn in H2; lia|].
    rewrite Nat2Z.inj_succ, Z.pow_succ_r in H1, H2 by lia.
    apply IH; Z.div_mod_to_equations; lia.
Qed.

Lemma enough_fuel (z : Z) : 0 <= z -> z < 10 ^ Z.of_nat (S (Z.to_nat (Z.log2 z))).
Proof.
  intros Hz. rewrite Nat2Z.inj_succ.
  destruct (Z.eq_dec z 0) as [->|Hne]; [cbn; lia|].
  rewrite Z2Nat.id by apply Z.log2_nonneg.
  assert (z < 2 ^ Z.succ (Z.log2 z)) by (apply Z.log2_spec; lia).
  assert (2 ^ Z.succ (Z.log2 z) <= 10 ^ Z.succ (Z.log2 z))
    by (apply Z.pow_le_mono_l; pose proof (Z.log2_nonneg z); lia).
  lia.
Qed.

Lemma decimal_digits_fuel (z : Z) (fuel : nat) :
  0 <= z < 10 ^ Z.of_nat (S fuel) -> decimal_digits z = decimal_digits_aux (S fuel) z [].
Proof.
  intros Hz. unfold decimal_digits. symmetry. apply decimal_digits_aux_fuel; [exact Hz|].
  apply enough_fuel. lia.
Qed.

(** The digits of [z], from the digits of [z / 10]. *)
Lemma decimal_digits_step (z : Z) :
  0 <= z ->
  decimal_digits z =
  if z <? 10 then [0x30 + z mod 10]
  else decimal_digits (z / 10) ++ [0x30 + z mod 10].
Proof.
  intros Hz. pose proof (enough_fuel z Hz) as Hfuel.
  set (fuel := Z.to_nat (Z.log2 z)) in *.
  unfold decimal_digits. fold fuel.
  cbn [decimal_digits_aux]. destruct (Z.ltb_spec z 10); [reflexivity|].
  rewrite decimal_digits_aux_acc. f_equal.
  destruct fuel as [|fuel']; [cbn in Hfuel; lia|].
  symmetry. apply decimal_digits_fuel.
  rewrite (Nat2Z.inj_succ (S fuel')), Z.pow_succ_r in Hfuel by lia.
  Z.div_mod_to_equations. lia.
Qed.

(** The digits of a non-negative integer are a decimal numeral that writes it. *)
Lemma decimal_digits_numeral (z : Z) : 0 <= z -> decimal_numeral (decimal_digits z) z.
Proof.
  revert z. apply (Zlt_0_ind (fun z => decimal_numeral (decimal_digits z) z)).
  intros z IH Hz. rewrite decimal_digits_step by lia.
  destruct (Z.ltb_spec z 10).
  - replace (z mod 10) with z by (Z.div_mod_to_equations; lia).
    apply numeral_digit. lia.
  - replace z with (10 * (z / 10) + z mod 10) at 3 by (Z.div_mod_to_equations; lia).
    apply numeral_snoc; [|Z.div_mod_to_equations; lia].
    apply IH; Z.div_mod_to_equations; lia.
Qed.

(** Appending zeros multiplies by powers of ten. *)
Lemma decimal_digits_shift (s : Z) (t : nat) :
  0 < s -> decimal_digits (s * 10 ^ Z.of_nat t) = decimal_digits s ++ zeros (Z.of_nat t).
Proof.
  intros Hs. induction t as [|t IH].
  - cbn [Z.of_nat]. rewrite Z.pow_0_r, Z.mul_1_r. unfold zeros. cbn. rewrite app_nil_r.
    reflexivity.
  - rewrite Nat2Z.inj_succ, Z.pow_succ_r by lia.
    assert (Hpos : 0 < s * 10 ^ Z.of_nat t)
      by (apply Z.mul_pos_pos; [lia|apply Z.pow_pos_nonneg; lia]).
    rewrite decimal_digits_step by lia.
    destruct (Z.ltb_spec (s * (10 * 10 ^ Z.of_nat t)) 10); [lia|].
    replace (s * (10 * 10 ^ Z.of_nat t) / 10) with (s * 10 ^ Z.of_nat t)
      by (Z.div_mod_to_equations; lia).
    replace (s * (10 * 10 ^ Z.of_nat t) mod 10) with 0
      by (Z.div_mod_to_equations; lia).
    rewrite IH. unfold zeros. rewrite <- Nat2Z.inj_succ, !Nat2Z.id.
    rewrite <- app_assoc. f_equal. symmetry. apply replicate_S_end.
Qed.

End DecimalDigits.

Section PrintInteger.

Local Open Scope Q_scope.

Lemma pow2_negative (n : Z) : (n < 0)%Z -> 0 < pow2 n /\ pow2 n <= 1 # 2.
Proof.
  intros Hn. unfold pow2. destruct (Z.leb_spec 0 n) as [H|_]; [lia|].
  assert (Hp : (2 <= 2 ^ (- n))%Z).
  { change 2%Z with (2 ^ 1)%Z at 1. apply Z.pow_le_mono_r; lia. }
  destruct (2 ^ (- n))%Z as [|q|q]; try lia.
  cbn [inject_Z Qinv Qnum Qden]. unfold Qlt, Qle. cbn [Qnum Qden]. lia.
Qed.

Lemma pow10_nonneg (n : Z) : (0 <= n)%Z -> pow10 n = inject_Z (10 ^ n).
Proof.
  intros Hn. unfold pow10. destruct (Z.leb_spec 0 n); [reflexivity|lia].
Qed.

Lemma Qfloor_quotient (a b : Z) : (0 < b)%Z -> Qfloor (inject_Z a / inject_Z b) = (a / b)%Z.
Proof.
  intros Hb. destruct b as [|q|q]; try lia.
  unfold Qdiv, Qmult, Qinv, inject_Z, Qfloor. cbn [Qnum Qden].
  rewrite Z.mul_1_r, Pos.mul_1_l. reflexivity.
Qed.

Variables (z : Z) (m : positive) (e : Z).
Hypothesis Hz : (0 < z < 2 ^ 53)%Z.
Hypothesis He : (-52 <= e <= 0)%Z.
Hypothesis Hm : Zpos m = (z * 2 ^ (- e))%Z.

Lemma value_eq : inject_Z (Zpos m) * pow2 e == inject_Z z.
Proof.
  rewrite Hm. unfold pow2. destruct (Z.leb_spec 0 e) as [H|H].
  - assert (e = 0)%Z as -> by lia. cbn. unfold Qeq. cbn. lia.
  - assert (Hp : (0 < 2 ^ (- e))%Z) by (apply Z.pow_pos_nonneg; lia).
    rewrite inject_Z_mult. field.
    intros H0. unfold Qeq in H0. cbn in H0. lia.
Qed.

(** An integer rounds to the Number of [z] only if it is [z]. *)
Lemma rounds_to_integer (c : Q) (ci : Z) :
  c == inject_Z ci -> rounds_to m e c = (ci =? z)%Z.
Proof.
  intros Hc. pose proof value_eq as Hv. unfold rounds_to.
  set (v := inject_Z (Zpos m) * pow2 e) in *.
  destruct (pow2_negative (e - 1) ltac:(lia)) as [Hup0 Hup1].
  assert (Hdown : exists h, 0 < h /\ h <= 1 # 2 /\
            (if (Zpos m =? 2 ^ (prec - 1))%Z && (3 - emax - prec <? e)%Z
             then v - pow2 (e - 2) else v - pow2 (e - 1)) = v - h).
  { destruct ((Zpos m =? 2 ^ (prec - 1))%Z && (3 - emax - prec <? e)%Z).
    - exists (pow2 (e - 2)). destruct (pow2_negative (e - 2) ltac:(lia)). auto.
    - exists (pow2 (e - 1)). auto. }
  destruct Hdown as (h & Hh0 & Hh1 & ->).
  set (up := pow2 (e - 1)) in *.
  assert (Hint : forall a b : Z, inject_Z a <= inject_Z b + (1 # 2) -> (a <= b)%Z).
  { intros a b H. apply Z.lt_succ_r. rewrite Zlt_Qlt.
    unfold Z.succ. rewrite inject_Z_plus. change (inject_Z 1) with 1. lra. }
  destruct (Z.eqb_spec ci z) as [->|Hne].
  - destruct (Z.even (Zpos m)).
    + apply andb_true_iff. split; apply Qle_bool_iff; lra.
    + apply andb_true_iff. split; apply negb_true_iff;
        destruct (Qle_bool _ _) eqn:Hb; try reflexivity;
        apply Qle_bool_iff in Hb; lra.
  - assert (Hout : ~ (v - h <= c /\ c <= v + up)).
    { intros [H1 H2]. apply Hne. apply Z.le_antisymm; apply Hint; lra. }
    destruct (Z.even (Zpos m)).
    + apply andb_false_iff.
      destruct (Qle_bool (v - h) c) eqn:H1; [|left; reflexivity].
      destruct (Qle_bool c (v + up)) eqn:H2; [|right; reflexivity].
      apply Qle_bool_iff in H1, H2. exfalso. apply Hout. split; assumption.
    + apply andb_false_iff.
      destruct (Qle_bool c (v - h)) eqn:H1; [left; reflexivity|].
      destruct (Qle_bool (v + up) c) eqn:H2; [right; reflexivity|].
      exfalso. apply Hout. split; apply Qnot_lt_le; intros Hlt.
      * apply Qlt_le_weak, Qle_bool_iff in Hlt. congruence.
      * apply Qlt_le_weak, Qle_bool_iff in Hlt. congruence.
Qed.

Variable D : Z.
Hypothesis HD : (10 ^ (D - 1) <= z < 10 ^ D)%Z.

Lemma D_range : (1 <= D <= 16)%Z.
Proof.
  split.
  - destruct (Z.le_gt_cases 1 D) as [H|H]; [exact H|].
    assert (10 ^ D <= 10 ^ 0)%Z by (apply Z.pow_le_mono_r; lia).
    change (10 ^ 0)%Z with 1%Z in *. lia.
  - destruct (Z.le_gt_cases D 16) as [H|H]; [exact H|].
    assert (10 ^ 16 <= 10 ^ (D - 1))%Z by (apply Z.pow_le_mono_r; lia). lia.
Qed.

(** With [k] digits there is a candidate exactly when [z] ends in [D - k] zeros. *)
Lemma candidate_integer (k : Z) :
  (1 <= k <= D)%Z ->
  candidate m e D k =
  if ((z / 10 ^ (D - k)) * 10 ^ (D - k) =? z)%Z
  then Some ((z / 10 ^ (D - k))%Z, D) else None.
Proof.
  intros Hk. unfold candidate. rewrite pow10_nonneg by lia.
  set (T := (10 ^ (D - k))%Z).
  assert (HT : (0 < T)%Z) by (apply Z.pow_pos_nonneg; lia).
  pose proof value_eq as Hv.
  set (v := inject_Z (Zpos m) * pow2 e) in *.
  assert (Hfloor : Qfloor (v / inject_Z T) = (z / T)%Z).
  { rewrite <- (Qfloor_quotient z T HT). apply Qfloor_comp. rewrite Hv. reflexivity. }
  rewrite Hfloor.
  rewrite (rounds_to_integer (inject_Z (z / T) * inject_Z T) (z / T * T))
    by (rewrite inject_Z_mult; reflexivity).
  rewrite (rounds_to_integer (inject_Z (z / T + 1) * inject_Z T) ((z / T + 1) * T))
    by (rewrite inject_Z_mult; reflexivity).
  assert (Hlow : (10 ^ (k - 1) <=? z / T)%Z = true).
  { apply Z.leb_le. apply Z.div_le_lower_bound; [exact HT|].
    subst T. rewrite <- Z.pow_add_r by lia.
    replace (D - k + (k - 1))%Z with (D - 1)%Z by lia. lia. }
  assert (Hhigh : ((z / T + 1) * T =? z)%Z = false).
  { apply Z.eqb_neq. Z.div_mod_to_equations. nia. }
  rewrite Hlow, Hhigh. cbn [andb].
  destruct (z / T * T =? z)%Z; reflexivity.
Qed.

(** The search for the shortest digit string stops at digits [s] with
    [s * 10^(D - k') = z]. *)
Lemma shortest_integer (fuel : nat) :
  forall k, (1 <= k <= D)%Z -> (D - k < Z.of_nat fuel)%Z ->
  exists s k', shortest fuel m e D k = (s, D, k') /\
    (k <= k' <= D)%Z /\ (s * 10 ^ (D - k') = z)%Z /\ (0 < s)%Z.
Proof.
  induction fuel as [|fuel IH]; intros k Hk Hfuel; [cbn in Hfuel; lia|].
  cbn [shortest]. rewrite candidate_integer by exact Hk.
  assert (HT : (0 < 10 ^ (D - k))%Z) by (apply Z.pow_pos_nonneg; lia).
  destruct (Z.eqb_spec (z / 10 ^ (D - k) * 10 ^ (D - k)) z) as [Hdiv|Hndiv].
  - exists (z / 10 ^ (D - k))%Z, k. split; [reflexivity|]. split; [lia|].
    split; [exact Hdiv|]. nia.
  - assert (k < D)%Z.
    { destruct (Z.eq_dec k D) as [->|]; [|lia]. exfalso. apply Hndiv.
      rewrite Z.sub_diag, Z.pow_0_r, Z.div_1_r. lia. }
    destruct (IH (k + 1)%Z) as (s & k' & Hs & Hk' & Hmul & Hpos); [lia|lia|].
    exists s, k'. split; [exact Hs|]. split; [lia|]. split; assumption.
Qed.

Lemma first_above_integer (fuel : nat) :
  forall j, (1 <= j <= D)%Z -> (D - j < Z.of_nat fuel)%Z ->
  first_above fuel (inject_Z (Zpos m) * pow2 e) j = D.
Proof.
  pose proof value_eq as Hv.
  induction fuel as [|fuel IH]; intros j Hj Hfuel; [cbn in Hfuel; lia|].
  cbn [first_above]. rewrite pow10_nonneg by lia.
  destruct (Qle_bool (inject_Z (10 ^ j)) (inject_Z (Zpos m) * pow2 e)) eqn:Hb.
  - apply Qle_bool_iff in Hb. rewrite Hv, <- Zle_Qle in Hb.
    assert (j < D)%Z.
    { destruct (Z.eq_dec j D) as [->|]; lia. }
    apply IH; lia.
  - destruct (Z.eq_dec j D) as [->|Hne]; [reflexivity|]. exfalso.
    assert (Hle : (10 ^ j <= 10 ^ (D - 1))%Z) by (apply Z.pow_le_mono_r; lia).
    assert (Htrue : Qle_bool (inject_Z (10 ^ j)) (inject_Z (Zpos m) * pow2 e) = true).
    { apply Qle_bool_iff. rewrite Hv, <- Zle_Qle. lia. }
    congruence.
Qed.

Hypothesis Hm53 : (2 ^ 52 <= Zpos m < 2 ^ 53)%Z.

(** The Number prints as the decimal digits of the integer. *)
Lemma Number_toString_integer :
  Number_toString (S754_finite false m e) = decimal_digits z.
Proof.
  pose proof D_range as HDr. pose proof value_eq as Hv.
  unfold Number_toString.
  assert (Hn0 : decimal_exponent (Z.to_nat (Z.abs e + Z.log2 (Zpos m) + 2))
                  (inject_Z (Zpos m) * pow2 e) = D).
  { unfold decimal_exponent.
    assert (Hone : Qle_bool 1 (inject_Z (Zpos m) * pow2 e) = true).
    { apply Qle_bool_iff. rewrite Hv. change 1 with (inject_Z 1).
      rewrite <- Zle_Qle. lia. }
    rewrite Hone. apply first_above_integer; [lia|].
    assert (52 <= Z.log2 (Zpos m))%Z by (apply Z.log2_le_pow2; lia).
    lia. }
  rewrite Hn0.
  destruct (shortest_integer 17 1%Z) as (s & k' & -> & Hk' & Hmul & Hpos);
    [lia|cbn; lia|].
  cbn [app]. unfold format_decimal.
  replace ((k' <=? D)%Z && (D <=? 21)%Z) with true
    by (symmetry; apply andb_true_iff; split; apply Z.leb_le; lia).
  rewrite <- (Z2Nat.id (D - k')) in Hmul |- * by lia.
  rewrite <- Hmul, decimal_digits_shift by exact Hpos. reflexivity.
Qed.

End PrintInteger.

Section PortInUrl.

(** The decimal exponent of a positive integer. *)
Lemma decimal_exponent_exists (z : Z) :
  0 < z -> exists D, 10 ^ (D - 1) <= z < 10 ^ D.
Proof.
  intros Hz. pose proof (Z.log2_nonneg z) as Hlog.
  assert (Hbound : z < 10 ^ (Z.log2 z + 1)).
  { assert (z < 2 ^ Z.succ (Z.log2 z)) by (apply Z.log2_spec; lia).
    assert (2 ^ Z.succ (Z.log2 z) <= 10 ^ Z.succ (Z.log2 z))
      by (apply Z.pow_le_mono_l; lia).
    unfold Z.succ in *. lia. }
  revert Hbound. generalize (Z.log2 z + 1). intros n.
  assert (Hn : forall k : nat, z < 10 ^ Z.of_nat k -> exists D, 10 ^ (D - 1) <= z < 10 ^ D).
  { induction k as [|k IH]; intros Hk; [cbn in Hk; lia|].
    destruct (Z.lt_ge_cases z (10 ^ Z.of_nat k)) as [Hlt|Hge]; [apply IH, Hlt|].
    exists (Z.of_nat (S k)). rewrite Nat2Z.inj_succ.
    replace (Z.succ (Z.of_nat k) - 1) with (Z.of_nat k) by lia.
    rewrite <- Nat2Z.inj_succ. lia. }
  intros Hbound. destruct (Z.le_gt_cases 0 n) as [H0|H0].
  - apply (Hn (Z.to_nat n)). rewrite Z2Nat.id by exact H0. exact Hbound.
  - rewrite Z.pow_neg_r in Hbound by lia. lia.
Qed.

(** A positive integer below 2^53 written in decimal digits parses to its
    Number, which is truthy and prints as the same digits. *)
Lemma integer_digits_come_back (z : Z) :
  0 < z < 2 ^ 53 ->
  parseInt (decimal_digits z) 10 = Number_of_Z z /\
  ToBoolean_number (Some (Number_of_Z z)) = true /\
  Number_toString (Number_of_Z z) = decimal_digits z.
Proof.
  intros Hz. split.
  - rewrite (parseInt_integer_string (decimal_digits z) false z)
      by (apply integer_plain, decimal_digits_numeral; lia).
    unfold signed_number. destruct (Z.eqb_spec z 0); [lia|reflexivity].
  - destruct (Number_of_Z_exact z Hz) as (m & e & -> & He & Hm & Hm53).
    split; [reflexivity|].
    destruct (decimal_exponent_exists z) as [D HD]; [lia|].
    apply (Number_toString_integer z m e Hz He Hm D HD Hm53).
Qed.

(** X15. A positive integer below 2^53 written in the variable of a numeric
    setting as its decimal digits is stored without rounding: the getter
    returns the Number whose value is that integer, and the Number prints
    as the digits that were read. *)
Theorem numeric_setting_digits_round_trip (env : Env) (p : jsstring) (s : Setting)
    (z : Z) :
  setting_type s = TNumber ->
  0 < z < 2 ^ 53 ->
  env !! (p ++ env_name s) = Some (decimal_digits z) ->
  exists c n, DpsConfig_new env p = Normal c /\
    getter s c = VNumber n /\
    n = Number_of_Z z /\
    (exists m e, n = S754_finite false m e /\ Zpos m = z * 2 ^ (- e) /\ e <= 0) /\
    Number_toString n = decimal_digits z.
Proof.
  intros Hty Hz Hraw.
  destruct (integer_digits_come_back z Hz) as (Hparse & _ & Hprint).
  destruct (DpsConfig_new_normal env p) as (c & Hnew & Hfields).
  exists c, (Number_of_Z z). split; [exact Hnew|].
  assert (Hr : loadEnvNumber env p (env_name s) = Normal (Some (Number_of_Z z))).
  { apply (loadEnvNumber_parsed env p (env_name s) (decimal_digits z)); try assumption.
    - intros Hnil. pose proof (decimal_digits_numeral z ltac:(lia)) as Hnum.
      rewrite Hnil in Hnum.
      destruct (decimal_numeral_head [] z Hnum) as (d & rest & Hd & _). discriminate Hd.
    - apply Number_of_Z_not_nan. }
  destruct (number_setting_loaded env p s c _ Hty (Hfields s) Hr) as [_ Hget].
  split; [exact Hget|]. split; [reflexivity|]. split; [|exact Hprint].
  destruct (Number_of_Z_exact z Hz) as (m & e & Hn & He & Hm & _).
  exists m, e. split; [exact Hn|]. split; [exact Hm|lia].
Qed.

(** A session lifetime of "1800". *)
Lemma numeric_setting_digits_round_trip_witness :
  setting_type AuthApiSessionTtlSeconds = TNumber /\ 0 < 1800 < 2 ^ 53 /\
  exists c,
    DpsConfig_new ({[js "DPS_AUTH_API_SESSION_TTL_SECONDS" := js "1800"]} : Env) []
      = Normal c /\
    Number_toString (getAuthApiSessionTtlSeconds c) = js "1800".
Proof.
  split; [reflexivity|]. split; [lia|].
  destruct (numeric_setting_digits_round_trip
              ({[js "DPS_AUTH_API_SESSION_TTL_SECONDS" := js "1800"]} : Env) []
              AuthApiSessionTtlSeconds 1800 eq_refl)
    as (c & n & Hnew & Hget & _ & _ & Hprint); [lia|apply lookup_singleton_eq|].
  exists c. split; [exact Hnew|].
  cbn [getter] in Hget. injection Hget as ->. exact Hprint.
Defined.

(** X16. A port number written in the port variable as its decimal digits (any
    positive integer below 2^53, so every port from 1 to 65535) is stored
    as that number and appears in the composed URL as ":" followed by the
    same digits. *)
Theorem env_port_appears_in_url (env : Env) (p : jsstring) (z : Z) :
  0 < z < 2 ^ 53 ->
  env !! (p ++ env_name AuthApiPort) = Some (decimal_digits z) ->
  exists c, DpsConfig_new env p = Normal c /\
    getAuthApiPort c = Some (Number_of_Z z) /\
    getAuthApiUrl c =
      getAuthApiProtocol c ++ js "://" ++ getAuthApiSubdomain c ++ js "." ++
      getDomain c ++ js ":" ++ decimal_digits z ++ js "/" ++ getApiPath c.
Proof.
  intros Hz Hraw.
  destruct (integer_digits_come_back z Hz) as (Hparse & Htruthy & Hprint).
  destruct (DpsConfig_new_normal env p) as (c & Hnew & Hfields).
  exists c. split; [exact Hnew|].
  assert (Hr : loadEnvNumber env p (env_name AuthApiPort)
               = Normal (Some (Number_of_Z z))).
  { apply (loadEnvNumber_parsed env p (env_name AuthApiPort) (decimal_digits z));
      try assumption.
    - intros Hnil. pose proof (decimal_digits_numeral z ltac:(lia)) as Hnum.
      rewrite Hnil in Hnum.
      destruct (decimal_numeral_head [] z Hnum) as (d & rest & Hd & _). discriminate Hd.
    - apply Number_of_Z_not_nan. }
  destruct (number_setting_loaded env p AuthApiPort c _ eq_refl (Hfields AuthApiPort) Hr)
    as [Hstored _].
  assert (Hport : getAuthApiPort c = Some (Number_of_Z z)).
  { cbn [stored of_number] in Hstored. unfold getAuthApiPort.
    destruct (authApiPort c); [injection Hstored as ->; reflexivity|discriminate]. }
  split; [exact Hport|].
  unfold getAuthApiUrl. rewrite Hport, Htruthy. cbn [ToString_number].
  rewrite Hprint. rewrite <- !app_assoc. reflexivity.
Qed.

(** Port 3000. *)
Lemma env_port_appears_in_url_witness :
  0 < 3000 < 2 ^ 53 /\
  exists c,
    DpsConfig_new ({[js "DPS_AUTH_API_PORT" := js "3000"]} : Env) [] = Normal c /\
    getAuthApiUrl c = js "https://auth.dps.localhost:3000/api".
Proof.
  split; [lia|].
  destruct (env_port_appears_in_url
              ({[js "DPS_AUTH_API_PORT" := js "3000"]} : Env) [] 3000)
    as (c & Hnew & _ & Hurl); [lia|apply lookup_singleton_eq|].
  exists c. split; [exact Hnew|].
  rewrite Hurl.
  assert (Hc : Normal c = Normal (setAuthApiPort (Some (Number_of_Z 3000)) blank))
    by (rewrite <- Hnew; vm_compute; reflexivity).
  injection Hc as ->. vm_compute. reflexivity.
Defined.

End PortInUrl.

(** ** No operation throws *)

Section NoThrow.

Lemma digit_prefix_stops_nil (t : jsstring) : stops_digits t -> digit_prefix 10 t = [].
Proof.
  destruct t as [|u t]; [reflexivity|]. cbn [stops_digits digit_prefix].
  intros ->. reflexivity.
Qed.

(** parseInt gives NaN on a value without a leading integer. *)
Lemma parseInt_no_leading_integer (v : jsstring) :
  no_leading_integer v -> parseInt v 10 = NaN.
Proof.
  induction 1 as [u rest Hu _ IH|u t Hu Ht|t Ht Hhead].
  - unfold parseInt in *. cbn [trim_start]. rewrite Hu. exact IH.
  - unfold parseInt.
    assert (Hspace : is_white_space u = false) by (destruct Hu; subst u; reflexivity).
    cbn [trim_start]. rewrite Hspace.
    assert (Hstrip : strip_sign (u :: t) = t)
      by (destruct Hu; subst u; reflexivity).
    rewrite Hstrip. cbn -[digit_prefix digits_value Number_of_Z].
    rewrite digit_prefix_stops_nil by exact Ht. reflexivity.
  - destruct t as [|u t]; [reflexivity|]. destruct Hhead as (Hspace & Hplus & Hminus).
    unfold parseInt. cbn [trim_start]. rewrite Hspace.
    assert (Hstrip : strip_sign (u :: t) = u :: t).
    { unfold strip_sign. destruct (Z.eqb_spec u 0x2B); [contradiction|].
      destruct (Z.eqb_spec u 0x2D); [contradiction|]. reflexivity. }
    rewrite Hstrip. cbn -[digit_prefix digits_value Number_of_Z Z.eqb].
    rewrite digit_prefix_stops_nil by exact Ht.
    destruct (u =? 45); reflexivity.
Qed.

(** Every code unit of a decimal numeral is one of the digits 0 to 9. *)
Lemma decimal_numeral_digits (ds : jsstring) (z : Z) :
  decimal_numeral ds z -> Forall (fun u => 0x30 <= u <= 0x39) ds.
Proof.
  induction 1 as [d Hd|ds z d _ IH Hd].
  - repeat constructor; lia.
  - apply Forall_app. split; [exact IH|]. repeat constructor; lia.
Qed.

(** C8, as amended. No operation raises an error. The three loaders and the
    constructor return normally for every environment and prefix (the reads
    of [value.length] are guarded), and so does every call of a getter, of
    a setter with an argument of the declared parameter type, and of the
    two computed getters; the calls other than setter calls leave the store
    as it was. A numeric variable whose value holds no leading integer (no
    decimal digit after the leading white space and an optional sign), or
    more generally on which parseInt gives NaN, leaves its field unset, so
    that the getter returns the default, or the absent value for the port.
    A numeric value that starts with an integer is not unset: the field
    holds that integer, whatever follows it. A getter returns [undefined]
    only for an unset field of a setting without default. *)
Theorem no_operation_throws (env : Env) (envPrefix : jsstring) :
  (forall key, exists r, loadEnvString env envPrefix key = Normal r) /\
  (forall key, exists r, loadEnvBool env envPrefix key = Normal r) /\
  (forall key, exists r, loadEnvNumber env envPrefix key = Normal r) /\
  (exists c, DpsConfig_new env envPrefix = Normal c /\
     (forall s v, setting_type s = TNumber ->
        env !! (envPrefix ++ env_name s) = Some v ->
        no_leading_integer v \/ isNaN (parseInt v 10) = true ->
        stored s c = VUndefined /\
        getter s c = default VUndefined (default_value s)) /\
     (forall s ws v t negative z, setting_type s = TNumber ->
        env !! (envPrefix ++ env_name s) = Some (ws ++ v ++ t) ->
        Forall (fun u => is_white_space u = true) ws ->
        integer_string v negative z -> stops_digits t ->
        stored s c = VNumber (signed_number negative z) /\
        getter s c = VNumber (signed_number negative z))) /\
  (forall m c,
     (forall s v, m = CallSetter s v ->
        has_type v (setting_type s) = true \/
        v = VUndefined /\ (setting_type s = TNumber \/ default_value s = None)) ->
     exists c' r, call m c = Some (Normal (c', r)) /\
       ((forall s v, m <> CallSetter s v) -> c' = c)) /\
  (forall c s v,
     has_type v (setting_type s) = true \/
     v = VUndefined /\ (setting_type s = TNumber \/ default_value s = None) ->
     is_Some (setter s v c)) /\
  (forall c s, getter s c = VUndefined ->
     stored s c = VUndefined /\ default_value s = None).
Proof.
  assert (Hsetter : forall c s v,
     has_type v (setting_type s) = true \/
     v = VUndefined /\ (setting_type s = TNumber \/ default_value s = None) ->
     is_Some (setter s v c)).
  { intros c s v [Hty|[-> Hundef]].
    - destruct s, v; try discriminate Hty; eexists; reflexivity.
    - destruct s; cbn in Hundef; destruct Hundef as [Hn|Hd];
        try discriminate; eexists; reflexivity. }
  repeat apply conj.
  - intros key. eexists. apply loadEnvString_normal.
  - intros key. eexists. apply loadEnvBool_normal.
  - intros key. eexists. apply loadEnvNumber_normal.
  - destruct (DpsConfig_new_normal env envPrefix) as (c & Hnew & Hfields).
    exists c. split; [exact Hnew|]. split.
    + intros s v Hty Hraw Hbad.
      assert (Hnan : isNaN (parseInt v 10) = true).
      { destruct Hbad as [Hnone|Hnan]; [|exact Hnan].
        rewrite (parseInt_no_leading_integer v Hnone). reflexivity. }
      apply (number_setting_loaded env envPrefix s c None Hty (Hfields s)).
      apply (loadEnvNumber_malformed env envPrefix (env_name s) v Hraw Hnan).
    + intros s ws v t negative z Hty Hraw Hws Hv Ht.
      assert (Hr : loadEnvNumber env envPrefix (env_name s)
                   = Normal (Some (signed_number negative z))).
      { apply (loadEnvNumber_parsed env envPrefix (env_name s) (ws ++ v ++ t)).
        - exact Hraw.
        - intros H. apply app_eq_nil in H. destruct H as [_ H].
          apply app_eq_nil in H. destruct H as [H _].
          exact (integer_string_nonempty v negative z Hv H).
        - apply parseInt_lenient; assumption.
        - apply signed_number_not_nan. }
      apply (number_setting_loaded env envPrefix s c _ Hty (Hfields s) Hr).
  - intros m c Hadmitted. destruct m as [s|s v| |]; cbn [call].
    + eexists _, _. split; [reflexivity|]. reflexivity.
    + destruct (Hsetter c s v (Hadmitted s v eq_refl)) as [c' Hc']. rewrite Hc'.
      eexists _, _. split; [reflexivity|]. intros Hnot. exfalso. exact (Hnot s v eq_refl).
    + eexists _, _. split; [reflexivity|]. reflexivity.
    + eexists _, _. split; [reflexivity|]. reflexivity.
  - exact Hsetter.
  - intros c s Hget.
    destruct s; cbn [getter stored default_value] in *; autounfold with getters in Hget;
      match goal with
      | |- context [of_string ?x] => destruct x
      | |- context [of_number ?x] => destruct x
      | |- context [of_boolean ?x] => destruct x
      end; try discriminate Hget; split; reflexivity.
Qed.

(** C8, as stated, fails: the port value "12abc" is malformed, it is not
    an integer string, and yet it does not degrade to the unset state; the
    port is set to 12. *)
Lemma malformed_value_is_stored :
  (forall negative z, ~ integer_string (js "12abc") negative z) /\
  DpsConfig_new ({[js "DPS_AUTH_API_PORT" := js "12abc"]} : Env) []
    = Normal (setAuthApiPort (Some (Number_of_Z 12)) blank) /\
  getAuthApiPort (setAuthApiPort (Some (Number_of_Z 12)) blank) = Some (Number_of_Z 12) /\
  getAuthApiPort (setAuthApiPort (Some (Number_of_Z 12)) blank) <> None.
Proof.
  split; [|split; [vm_compute; reflexivity|split; [reflexivity|discriminate]]].
  intros negative z H.
  assert (Hdigits : forall ds z', decimal_numeral ds z' -> ~ In 0x61 ds).
  { intros ds z' Hnum Hin. apply decimal_numeral_digits in Hnum.
    rewrite Forall_forall in Hnum.
    specialize (Hnum _ (proj2 (list_elem_of_In _ _) Hin)). lia. }
  remember (js "12abc") as v eqn:Hv. vm_compute in Hv.
  destruct H as [ds z' Hnum|ds z' Hnum|ds z' Hnum]; try discriminate Hv.
  apply (Hdigits ds z' Hnum). subst ds. cbn. auto.
Qed.

(** A port that holds no integer leaves the port absent; the calls of the
    port getter and of the URL getter return normally. *)
Lemma no_operation_throws_witness :
  exists c,
    DpsConfig_new ({[js "DPS_AUTH_API_PORT" := js "not-a-number"]} : Env) [] = Normal c /\
    getter AuthApiPort c = VUndefined /\
    call (CallGetter AuthApiPort) c = Some (Normal (c, ReturnedValue VUndefined)) /\
    exists r, call CallGetAuthApiUrl c = Some (Normal (c, r)).
Proof.
  destruct (no_operation_throws
              ({[js "DPS_AUTH_API_PORT" := js "not-a-number"]} : Env) [])
    as (_ & _ & _ & (c & Hnew & Hmalformed & _) & Hcall & _ & _).
  exists c. split; [exact Hnew|].
  assert (Hget : getter AuthApiPort c = VUndefined).
  { apply (Hmalformed AuthApiPort (js "not-a-number") eq_refl);
      [apply lookup_singleton_eq|].
    left. apply no_integer_at_all; [reflexivity|]. cbn. repeat split; discriminate. }
  split; [exact Hget|]. split.
  - cbn [call mret completion_ret]. rewrite Hget. reflexivity.
  - destruct (Hcall CallGetAuthApiUrl c) as (c' & r & Hr & Hsame);
      [intros s v H; discriminate H|].
    exists r. rewrite Hr. rewrite Hsame by (intros s v H; discriminate H). reflexivity.
Defined.

End NoThrow.
